(** * Host-side dispatch layer of csrc/ops.cu

    The file embeds the host functions of [csrc/ops.cu] (block-count
    computation, accumulator zeroing, kernel launches and the
    [CUDA_CHECK_RETURN] macro of the header) as programs of a small
    state-and-exit monad over an explicit device heap, a log of runtime
    calls and the error stream.  Kernel bodies live in another translation
    unit; they are a parameter of the development ([kernel_body] of the class
    [Device]), and so is the behaviour of the accelerator runtime (the
    statuses it reports).  [float] is an abstract type with the few
    operations the host code uses; the blockwise quantization round trip is
    stated over the rationals. *)

From stdpp Require Import gmap strings list pretty.
From Stdlib Require Import ZArith QArith Qabs Lqa Lia.

Open Scope Z_scope.

(** ** C [int] arithmetic *)

Definition INT_MIN : Z := - 2 ^ 31.
Definition INT_MAX : Z := 2 ^ 31 - 1.

Definition int_range (x : Z) : Prop := INT_MIN <= x <= INT_MAX.

(** [a / b] and [a % b] on [int]: truncation toward zero; a zero divisor and
    [INT_MIN / -1] have no defined result. *)
Definition c_div (a b : Z) : option Z :=
  if (b =? 0) || ((a =? INT_MIN) && (b =? -1)) then None else Some (Z.quot a b).

Definition c_rem (a b : Z) : option Z :=
  if (b =? 0) || ((a =? INT_MIN) && (b =? -1)) then None else Some (Z.rem a b).

(** The two lines every routine starts with:
      [int blocks = n/E;  blocks = n % E == 0 ? blocks : blocks + 1;]
    for a literal, positive [E] (no undefined case, and [blocks + 1] cannot
    overflow since [blocks <= INT_MAX / E]). *)
Definition num_blocks (n E : Z) : Z :=
  let blocks := Z.quot n E in
  if Z.rem n E =? 0 then blocks else blocks + 1.

(** ** Data of the device *)

(** Element types the templates are instantiated at. *)
Inductive dtype := half | float.

(** [Optimizer_t].  The header at hand lists ADAM and MOMENTUM. *)
Definition ADAM : Z := 0.
Definition MOMENTUM : Z := 1.
(** Modelled from the spec: the enumerators RMSPROP and ADAGRAD are used by
    the switches of ops.cu but their declaration is not in the header at
    hand; the interface section gives them "by extension" of ADAM=0,
    MOMENTUM=1. *)
Definition RMSPROP : Z := 2.
(** Modelled from the spec: see [RMSPROP]. *)
Definition ADAGRAD : Z := 3.

(** What the host code needs of [float]: the constant [0.0f], the comparison
    [>], the accumulation used by reductions, and
    [std::numeric_limits<T>::max()]. *)
Class Float32 (F : Type) := {
  f_zero : F;
  f_gt : F -> F -> bool;
  f_add : F -> F -> F;
  numeric_limits_max : dtype -> F
}.

(** A cell of device memory holds one element: a float (of either width) or
    an unsigned char.  Addresses count elements. *)
Inductive cell (F : Type) :=
  | Flt (x : F)
  | Byt (b : Z).
Arguments Flt {F} x.
Arguments Byt {F} b.

Abbreviation heap F := (gmap Z (cell F)).

Inductive kernel :=
  | kHistogramScatterAdd2D
  | kEstimateQuantiles (T : dtype)
  | kQuantize
  | kDequantize
  | kQuantizeBlockwise (T : dtype) (BLOCK_SIZE NUM_PER_TH STOCHASTIC : Z)
  | kDequantizeBlockwise (T : dtype) (BLOCK_SIZE THREADS NUM_PER_TH : Z)
  | kPreconditionOptimizer32bit2State (T : dtype) (OPTIMIZER BLOCK_SIZE NUM_VALS : Z)
  | kOptimizer32bit2State (T : dtype) (OPTIMIZER : Z)
  | kPreconditionOptimizer32bit1State (T : dtype) (OPTIMIZER BLOCK_SIZE NUM_VALS : Z)
  | kOptimizer32bit1State (T : dtype) (OPTIMIZER : Z)
  | kPreconditionOptimizerStatic8bit2State (T : dtype) (OPTIMIZER : Z)
  | kOptimizerStatic8bit2State (T : dtype) (OPTIMIZER : Z)
  | kPreconditionOptimizerStatic8bit1State (T : dtype) (OPTIMIZER : Z)
  | kOptimizerStatic8bit1State (T : dtype) (OPTIMIZER : Z)
  | kOptimizerStatic8bit2StateBlockwise (T : dtype) (OPTIMIZER BLOCK_SIZE N_PER_TH : Z)
  | kOptimizerStatic8bit1StateBlockwise (T : dtype) (OPTIMIZER BLOCK_SIZE N_PER_TH : Z)
  | kPercentileClipping (T : dtype) (BLOCK_SIZE NUM_VALS : Z).

(** Kernel arguments as passed at the launch site. *)
Inductive arg (F : Type) :=
  | APtr (p : Z)
  | AFloat (x : F)
  | AInt (i : Z)
  | ABool (b : bool).
Arguments APtr {F} p.
Arguments AFloat {F} x.
Arguments AInt {F} i.
Arguments ABool {F} b.

(** [cudaError_t]; [cudaSuccess] is 0. *)
Definition cudaSuccess : Z := 0.

(** Calls into the accelerator runtime, with the status the runtime gave
    back where the call has one. *)
Inductive event (F : Type) :=
  | EvMemset (devPtr value count status : Z)
  | EvLaunch (k : kernel) (grid block : Z) (args : list (arg F))
  | EvPeek (status : Z).
Arguments EvMemset {F} devPtr value count status.
Arguments EvLaunch {F} k grid block args.
Arguments EvPeek {F} status.

Definition is_launch {F} (e : event F) : bool :=
  match e with EvLaunch _ _ _ _ => true | _ => false end.

Definition launches {F} (t : list (event F)) : list (event F) :=
  List.filter is_launch t.

(** The status an event carries ([cudaSuccess] for a launch, which reports
    nothing by itself). *)
Definition status_of {F} (e : event F) : Z :=
  match e with
  | EvMemset _ _ _ s => s
  | EvLaunch _ _ _ _ => cudaSuccess
  | EvPeek s => s
  end.

(** The world a host routine runs in.  [runtime] lists the statuses the
    runtime is going to answer to the coming status-returning calls
    ([cudaMemset], [cudaPeekAtLastError]), [cudaSuccess] once the list is used
    up: the runtime is not part of the program, so every behaviour of it is
    allowed for. *)
Record world (F : Type) := World {
  mem : heap F;
  trace : list (event F);
  stderr : string;
  runtime : list Z
}.
Arguments World {F} mem trace stderr runtime.
Arguments mem {F} w.
Arguments trace {F} w.
Arguments stderr {F} w.
Arguments runtime {F} w.

(** ** The monad of host code *)

Inductive outcome (F A : Type) :=
  | Returned (a : A) (w : world F)
  | Exited (status : Z) (w : world F)
  | Undefined.
Arguments Returned {F A} a w.
Arguments Exited {F A} status w.
Arguments Undefined {F A}.

Definition M (F A : Type) : Type := world F -> outcome F A.

Definition ret {F A} (a : A) : M F A := fun w => Returned a w.

Definition bind {F A B} (m : M F A) (k : A -> M F B) : M F B :=
  fun w =>
    match m w with
    | Returned a w' => k a w'
    | Exited s w' => Exited s w'
    | Undefined => Undefined
    end.

Declare Scope host_scope.
Delimit Scope host_scope with host.
Notation "x <- m ;; k" := (bind m (fun x => k))
  (at level 100, m at next level, right associativity) : host_scope.
Notation "m ;; k" := (bind m (fun _ => k))
  (at level 100, right associativity) : host_scope.
Notation "'when' b 'then' m" := (if b then m else ret tt)
  (at level 100, b at next level, m at next level) : host_scope.
Open Scope host_scope.

(** An [int] division whose divisor is not a literal. *)
Definition checked {F A} (o : option A) : M F A :=
  fun w => match o with Some a => Returned a w | None => Undefined end.

Definition sizeof_float : Z := 4.

Definition newline : string := String (Ascii.ascii_of_nat 10) EmptyString.

(** Zeroing [cells] consecutive float cells from [p]. *)
Definition zero_cells {F} `{Float32 F} (p cells : Z) (h : heap F) : heap F :=
  foldl (fun h i => <[p + i := Flt f_zero]> h) h (seqZ 0 cells).

(** What lies outside ops.cu: the kernels of kernels.cu, given as the effect
    of one work-group ([blockIdx.x = b]) of a launch with [block] threads per
    work-group; [cudaGetErrorString]; and the value of [__FILE__]. *)
Class Device (F : Type) := {
  kernel_body : kernel -> Z -> list (arg F) -> Z -> heap F -> heap F;
  cudaGetErrorString : Z -> string;
  FILE : string
}.

Section Host.
Context {F : Type} `{Float32 F} `{Device F}.

(** A launch runs the kernel body once for every work-group of its grid
    (none when the grid is empty).  The hardware runs the work-groups in no
    particular order; here they run by increasing index. *)
Definition run_grid (k : kernel) (grid block : Z) (args : list (arg F))
    (h : heap F) : heap F :=
  foldl (fun h b => kernel_body k block args b h) h (seqZ 0 grid).

Definition next_status (w : world F) : Z * list Z :=
  match runtime w with
  | [] => (cudaSuccess, [])
  | s :: rest => (s, rest)
  end.

(** [cudaMemset(devPtr, value, count)] on a float buffer.  Every call site
    passes [value = 0], the bit pattern of [0.0f]; other fill bytes are
    not float operations and are outside the model.  A call the runtime
    reports as failed leaves the memory as it was. *)
Definition cudaMemset (devPtr value count : Z) : M F Z :=
  fun w =>
    if value =? 0 then
      let '(s, rest) := next_status w in
      Returned s
        {| mem := if s =? cudaSuccess
                  then zero_cells devPtr (Z.quot count sizeof_float) (mem w)
                  else mem w;
           trace := trace w ++ [EvMemset devPtr value count s];
           stderr := stderr w;
           runtime := rest |}
    else Undefined.

Definition cudaPeekAtLastError : M F Z :=
  fun w =>
    let '(s, rest) := next_status w in
    Returned s
      {| mem := mem w;
         trace := trace w ++ [EvPeek s];
         stderr := stderr w;
         runtime := rest |}.

(** [k<<<grid, block>>>(args)]. *)
Definition launch (k : kernel) (grid block : Z) (args : list (arg F)) : M F unit :=
  fun w =>
    Returned tt
      {| mem := run_grid k grid block args (mem w);
         trace := trace w ++ [EvLaunch k grid block args];
         stderr := stderr w;
         runtime := runtime w |}.

Definition fprintf_stderr (s : string) : M F unit :=
  fun w =>
    Returned tt
      {| mem := mem w; trace := trace w; stderr := stderr w +:+ s;
         runtime := runtime w |}.

Definition exit {A} (status : Z) : M F A := fun w => Exited status w.

Definition error_message (st : Z) (line : Z) : string :=
  "Error " +:+ cudaGetErrorString st +:+ " at line " +:+ pretty line
    +:+ " in file " +:+ FILE +:+ newline.

(** The macro; [line] is [__LINE__] at the use. *)
Definition CUDA_CHECK_RETURN (line : Z) (value : M F Z) : M F unit :=
  _m_cudaStat <- value ;;
  if negb (_m_cudaStat =? cudaSuccess) then
    (fprintf_stderr (error_message _m_cudaStat line) ;;
     exit 1)
  else ret tt.

(** ** The routines of ops.cu *)

Definition histogramScatterAdd2D (histogram index1 index2 src maxidx1 n : Z) : M F unit :=
  let threads := 512 in
  let blocks := num_blocks n threads in
  launch kHistogramScatterAdd2D blocks 512
    [APtr histogram; APtr index1; APtr index2; APtr src; AInt maxidx1; AInt n] ;;
  CUDA_CHECK_RETURN 24 cudaPeekAtLastError.

Definition estimateQuantiles (T : dtype) (A code : Z) (offset : F) (n : Z) : M F unit :=
  let blocks := num_blocks n 4096 in
  CUDA_CHECK_RETURN 31 (cudaMemset code 0 (256 * sizeof_float)) ;;
  launch (kEstimateQuantiles T) blocks 512
    [APtr A; APtr code; AFloat offset; AFloat (numeric_limits_max T); AInt n] ;;
  CUDA_CHECK_RETURN 33 cudaPeekAtLastError.

Definition quantize (code A out n : Z) : M F unit :=
  let blocks := num_blocks n 1024 in
  launch kQuantize blocks 1024 [APtr code; APtr A; APtr out; AInt n] ;;
  CUDA_CHECK_RETURN 41 cudaPeekAtLastError.

Definition dequantize (code A out n : Z) : M F unit :=
  let blocks := num_blocks n 1024 in
  launch kDequantize blocks 1024 [APtr code; APtr A; APtr out; AInt n] ;;
  CUDA_CHECK_RETURN 49 cudaPeekAtLastError.

Definition quantizeBlockwise (T : dtype) (STOCHASTIC : Z)
    (code A absmax out rand rand_offset n : Z) : M F unit :=
  let blocks := num_blocks n 4096 in
  launch (kQuantizeBlockwise T 4096 4 STOCHASTIC) blocks 1024
    [APtr code; APtr A; APtr absmax; APtr out; APtr rand; AInt rand_offset; AInt n] ;;
  CUDA_CHECK_RETURN 57 cudaPeekAtLastError.

Definition dequantizeBlockwise (T : dtype) (code A absmax out blocksize n : Z) : M F unit :=
  blocks <- checked (c_div n blocksize) ;;
  r <- checked (c_rem n blocksize) ;;
  let blocks := if r =? 0 then blocks else blocks + 1 in
  (if blocksize =? 4096 then
     launch (kDequantizeBlockwise T 4096 1024 4) blocks (Z.quot 4096 4)
       [APtr code; APtr A; APtr absmax; APtr out; AInt n]
   else if blocksize =? 2048 then
     launch (kDequantizeBlockwise T 2048 512 4) blocks (Z.quot 2048 4)
       [APtr code; APtr A; APtr absmax; APtr out; AInt n]
   else ret tt) ;;
  CUDA_CHECK_RETURN 68 cudaPeekAtLastError.

Definition optimizer32bit (T : dtype) (OPTIMIZER : Z)
    (g p state1 state2 unorm : Z) (max_unorm param_norm beta1 beta2 eps weight_decay : F)
    (step : Z) (lr gnorm_scale : F) (skip_zeros : bool) (n : Z) : M F unit :=
  let blocks := num_blocks n 4096 in
  if OPTIMIZER =? ADAM then
    (when (f_gt max_unorm f_zero) then
       (CUDA_CHECK_RETURN 83 (cudaMemset unorm 0 (1 * sizeof_float)) ;;
        launch (kPreconditionOptimizer32bit2State T OPTIMIZER 4096 8) blocks 512
          [APtr g; APtr p; APtr state1; APtr state2; APtr unorm; AFloat beta1;
           AFloat beta2; AFloat eps; AFloat weight_decay; AInt step; AFloat lr;
           AFloat gnorm_scale; AInt n] ;;
        CUDA_CHECK_RETURN 85 cudaPeekAtLastError)) ;;
    launch (kOptimizer32bit2State T OPTIMIZER) blocks 1024
      [APtr g; APtr p; APtr state1; APtr state2; APtr unorm; AFloat max_unorm;
       AFloat param_norm; AFloat beta1; AFloat beta2; AFloat eps;
       AFloat weight_decay; AInt step; AFloat lr; AFloat gnorm_scale;
       ABool skip_zeros; AInt n] ;;
    CUDA_CHECK_RETURN 88 cudaPeekAtLastError
  else if (OPTIMIZER =? MOMENTUM) || (OPTIMIZER =? RMSPROP) || (OPTIMIZER =? ADAGRAD) then
    (when (f_gt max_unorm f_zero) then
       (CUDA_CHECK_RETURN 96 (cudaMemset unorm 0 (1 * sizeof_float)) ;;
        launch (kPreconditionOptimizer32bit1State T OPTIMIZER 4096 8) blocks 512
          [APtr g; APtr p; APtr state1; APtr unorm; AFloat beta1; AFloat eps;
           AFloat weight_decay; AInt step; AFloat lr; AFloat gnorm_scale; AInt n] ;;
        CUDA_CHECK_RETURN 98 cudaPeekAtLastError)) ;;
    launch (kOptimizer32bit1State T OPTIMIZER) blocks 1024
      [APtr g; APtr p; APtr state1; APtr unorm; AFloat max_unorm; AFloat param_norm;
       AFloat beta1; AFloat eps; AFloat weight_decay; AInt step; AFloat lr;
       AFloat gnorm_scale; ABool skip_zeros; AInt n] ;;
    CUDA_CHECK_RETURN 102 cudaPeekAtLastError
  else ret tt.

Definition optimizerStatic8bit (T : dtype) (OPTIMIZER : Z)
    (p g state1 state2 unorm : Z) (max_unorm param_norm beta1 beta2 eps : F)
    (step : Z) (lr : F) (quantiles1 quantiles2 max1 max2 new_max1 new_max2 : Z)
    (weight_decay gnorm_scale : F) (n : Z) : M F unit :=
  let blocks := num_blocks n 4096 in
  (when (f_gt max_unorm f_zero) then
     CUDA_CHECK_RETURN 120 (cudaMemset unorm 0 (1 * sizeof_float))) ;;
  if OPTIMIZER =? ADAM then
    CUDA_CHECK_RETURN 125 (cudaMemset new_max1 0 (1 * sizeof_float)) ;;
    CUDA_CHECK_RETURN 126 (cudaMemset new_max2 0 (1 * sizeof_float)) ;;
    launch (kPreconditionOptimizerStatic8bit2State T OPTIMIZER) blocks 256
      [APtr p; APtr g; APtr state1; APtr state2; APtr unorm; AFloat beta1;
       AFloat beta2; AFloat eps; AInt step; APtr quantiles1; APtr quantiles2;
       APtr max1; APtr max2; APtr new_max1; APtr new_max2; AFloat gnorm_scale;
       AInt n] ;;
    CUDA_CHECK_RETURN 128 cudaPeekAtLastError ;;
    launch (kOptimizerStatic8bit2State T OPTIMIZER) blocks 1024
      [APtr p; APtr g; APtr state1; APtr state2; APtr unorm; AFloat max_unorm;
       AFloat param_norm; AFloat beta1; AFloat beta2; AFloat eps; AInt step;
       AFloat lr; APtr quantiles1; APtr quantiles2; APtr max1; APtr max2;
       APtr new_max1; APtr new_max2; AFloat weight_decay; AFloat gnorm_scale;
       AInt n] ;;
    CUDA_CHECK_RETURN 131 cudaPeekAtLastError
  else if (OPTIMIZER =? MOMENTUM) || (OPTIMIZER =? RMSPROP) || (OPTIMIZER =? ADAGRAD) then
    CUDA_CHECK_RETURN 136 (cudaMemset new_max1 0 (1 * sizeof_float)) ;;
    launch (kPreconditionOptimizerStatic8bit1State T OPTIMIZER) blocks 256
      [APtr p; APtr g; APtr state1; APtr unorm; AFloat beta1; AFloat eps;
       AInt step; APtr quantiles1; APtr max1; APtr new_max1; AFloat weight_decay;
       AFloat gnorm_scale; AInt n] ;;
    CUDA_CHECK_RETURN 138 cudaPeekAtLastError ;;
    launch (kOptimizerStatic8bit1State T OPTIMIZER) blocks 1024
      [APtr p; APtr g; APtr state1; APtr unorm; AFloat max_unorm; AFloat param_norm;
       AFloat beta1; AFloat eps; AInt step; AFloat lr; APtr quantiles1; APtr max1;
       APtr new_max1; AFloat weight_decay; AFloat gnorm_scale; AInt n] ;;
    CUDA_CHECK_RETURN 141 cudaPeekAtLastError
  else ret tt.

Definition BLOCKSIZE_2STATE : Z := 2048.
Definition NUM_2STATE : Z := 8.
Definition BLOCKSIZE_1STATE : Z := 2048.
Definition NUM_1STATE : Z := 8.

Definition optimizerStatic8bitBlockwise (T : dtype) (OPTIMIZER : Z)
    (p g state1 state2 : Z) (beta1 beta2 eps : F) (step : Z) (lr : F)
    (quantiles1 quantiles2 absmax1 absmax2 : Z) (weight_decay gnorm_scale : F)
    (skip_zeros : bool) (n : Z) : M F unit :=
  if OPTIMIZER =? ADAM then
    let blocks := num_blocks n BLOCKSIZE_2STATE in
    launch (kOptimizerStatic8bit2StateBlockwise T OPTIMIZER BLOCKSIZE_2STATE NUM_2STATE)
      blocks (Z.quot BLOCKSIZE_2STATE NUM_2STATE)
      [APtr p; APtr g; APtr state1; APtr state2; AFloat beta1; AFloat beta2;
       AFloat eps; AInt step; AFloat lr; APtr quantiles1; APtr quantiles2;
       APtr absmax1; APtr absmax2; AFloat weight_decay; AFloat gnorm_scale;
       ABool skip_zeros; AInt n] ;;
    CUDA_CHECK_RETURN 166 cudaPeekAtLastError
  else if (OPTIMIZER =? MOMENTUM) || (OPTIMIZER =? RMSPROP) || (OPTIMIZER =? ADAGRAD) then
    let blocks := num_blocks n BLOCKSIZE_1STATE in
    launch (kOptimizerStatic8bit1StateBlockwise T OPTIMIZER BLOCKSIZE_1STATE NUM_1STATE)
      blocks (Z.quot BLOCKSIZE_1STATE NUM_1STATE)
      [APtr p; APtr g; APtr state1; AFloat beta1; AFloat beta2; AFloat eps;
       AInt step; AFloat lr; APtr quantiles1; APtr absmax1; AFloat weight_decay;
       AFloat gnorm_scale; ABool skip_zeros; AInt n] ;;
    CUDA_CHECK_RETURN 175 cudaPeekAtLastError
  else ret tt.

Definition percentileClipping (T : dtype) (g gnorm_vec step n : Z) : M F unit :=
  let blocks := num_blocks n 2048 in
  CUDA_CHECK_RETURN 186 (cudaMemset (gnorm_vec + Z.rem step 100) 0 (1 * sizeof_float)) ;;
  launch (kPercentileClipping T 2048 4) blocks 512
    [APtr g; APtr gnorm_vec; AInt step; AInt n] ;;
  CUDA_CHECK_RETURN 188 cudaPeekAtLastError.

End Host.

(** ** Vocabulary of the properties *)

(** The runtime reports success to every call to come. *)
Definition all_success (r : list Z) : Prop :=
  Forall (fun s => s = cudaSuccess) r.

Definition quiet {F} (w : world F) : Prop := all_success (runtime w).

(** Every launch of a log is directly followed by the last-error query. *)
Fixpoint launches_checked {F} (t : list (event F)) : bool :=
  match t with
  | [] => true
  | EvLaunch _ _ _ _ :: rest =>
      match rest with
      | EvPeek _ :: _ => launches_checked rest
      | _ => false
      end
  | _ :: rest => launches_checked rest
  end.

(** What the successful [cudaMemset]s of a log do to a heap, and nothing
    else. *)
Definition replay_memsets {F} `{Float32 F} (t : list (event F)) (h : heap F) : heap F :=
  foldl (fun h e =>
           match e with
           | EvMemset devPtr _ count s =>
               if s =? cudaSuccess then zero_cells devPtr (Z.quot count sizeof_float) h
               else h
           | _ => h
           end) h t.

(** The first-phase and second-phase kernels of the optimizers. *)
Definition precondition_kernel (k : kernel) : bool :=
  match k with
  | kPreconditionOptimizer32bit2State _ _ _ _
  | kPreconditionOptimizer32bit1State _ _ _ _
  | kPreconditionOptimizerStatic8bit2State _ _
  | kPreconditionOptimizerStatic8bit1State _ _ => true
  | _ => false
  end.

Definition update_kernel (k : kernel) : bool :=
  match k with
  | kOptimizer32bit2State _ _
  | kOptimizer32bit1State _ _
  | kOptimizerStatic8bit2State _ _
  | kOptimizerStatic8bit1State _ _ => true
  | _ => false
  end.

(** [g] work-groups of [E] elements are the fewest that cover [n] elements. *)
Definition is_ceil (g n E : Z) : Prop := E * (g - 1) < n <= E * g.

(** The explicit instantiations of [optimizerStatic8bit] at the end of
    ops.cu ([MAKE_optimizerStatic8bit(name, gtype)]), in source order. *)
Definition optimizerStatic8bit_instantiations : list (Z * dtype) :=
  [ (ADAM, half); (ADAM, float);
    (MOMENTUM, half); (MOMENTUM, float);
    (RMSPROP, half); (RMSPROP, float) ].

Section Routines.
Context {F : Type} `{Float32 F} `{Device F}.

(** The host routines of ops.cu, each with its element count and the
    number of elements one work-group covers. *)
Inductive routine : Z -> Z -> M F unit -> Prop :=
  | R_histogramScatterAdd2D histogram index1 index2 src maxidx1 n :
      routine n 512 (histogramScatterAdd2D histogram index1 index2 src maxidx1 n)
  | R_estimateQuantiles T A code offset n :
      routine n 4096 (estimateQuantiles T A code offset n)
  | R_quantize code A out n :
      routine n 1024 (quantize code A out n)
  | R_dequantize code A out n :
      routine n 1024 (dequantize code A out n)
  | R_quantizeBlockwise T STOCHASTIC code A absmax out rand rand_offset n :
      routine n 4096 (quantizeBlockwise T STOCHASTIC code A absmax out rand rand_offset n)
  | R_dequantizeBlockwise T code A absmax out blocksize n :
      routine n blocksize (dequantizeBlockwise T code A absmax out blocksize n)
  | R_optimizer32bit T OPTIMIZER g p state1 state2 unorm max_unorm param_norm
      beta1 beta2 eps weight_decay step lr gnorm_scale skip_zeros n :
      routine n 4096
        (optimizer32bit T OPTIMIZER g p state1 state2 unorm max_unorm param_norm
           beta1 beta2 eps weight_decay step lr gnorm_scale skip_zeros n)
  | R_optimizerStatic8bit T OPTIMIZER p g state1 state2 unorm max_unorm param_norm
      beta1 beta2 eps step lr quantiles1 quantiles2 max1 max2 new_max1 new_max2
      weight_decay gnorm_scale n :
      routine n 4096
        (optimizerStatic8bit T OPTIMIZER p g state1 state2 unorm max_unorm param_norm
           beta1 beta2 eps step lr quantiles1 quantiles2 max1 max2 new_max1 new_max2
           weight_decay gnorm_scale n)
  | R_optimizerStatic8bitBlockwise T OPTIMIZER p g state1 state2 beta1 beta2 eps
      step lr quantiles1 quantiles2 absmax1 absmax2 weight_decay gnorm_scale
      skip_zeros n :
      routine n 2048
        (optimizerStatic8bitBlockwise T OPTIMIZER p g state1 state2 beta1 beta2 eps
           step lr quantiles1 quantiles2 absmax1 absmax2 weight_decay gnorm_scale
           skip_zeros n)
  | R_percentileClipping T g gnorm_vec step n :
      routine n 2048 (percentileClipping T g gnorm_vec step n).

End Routines.

(** The lines of ops.cu on which [CUDA_CHECK_RETURN] is used. *)
Definition check_lines : list Z :=
  [24; 31; 33; 41; 49; 57; 68; 83; 85; 88; 96; 98; 102; 120; 125; 126; 128;
   131; 136; 138; 141; 166; 175; 186; 188].

Section Discipline.
Context {F : Type} `{Float32 F} `{Device F}.

(** The effect of a log of runtime calls on the device memory. *)
Definition apply_events (t : list (event F)) (h : heap F) : heap F :=
  foldl (fun h e =>
           match e with
           | EvMemset devPtr _ count s =>
               if s =? cudaSuccess then zero_cells devPtr (Z.quot count sizeof_float) h
               else h
           | EvLaunch k grid block args => run_grid k grid block args h
           | EvPeek _ => h
           end) h t.

(** The contract every host routine keeps with its caller, whatever the
    runtime answers.  [Q] is a property of the logged calls.
    - A call that returns has logged only successful calls, each launch
      directly followed by the last-error query, and printed nothing.
    - A call that ends the process does so with status 1, right after the
      first call [e] that the runtime reported as failed, having printed the
      message for that status.
    In both cases the memory is what the logged calls make of it. *)
Definition segment (Q : event F -> Prop) (m : M F unit) : Prop :=
  forall w,
    match m w with
    | Returned _ w' =>
        exists t,
          trace w' = trace w ++ t /\
          Forall (fun e => status_of e = cudaSuccess) t /\
          launches_checked t = true /\
          Forall Q t /\
          mem w' = apply_events t (mem w) /\
          stderr w' = stderr w /\
          (forall s, In s (runtime w') -> In s (runtime w))
    | Exited st w' =>
        st = 1 /\
        exists t e line,
          trace w' = trace w ++ t ++ [e] /\
          Forall (fun e => status_of e = cudaSuccess) t /\
          status_of e <> cudaSuccess /\
          In (status_of e) (runtime w) /\
          launches_checked (t ++ [e]) = true /\
          Forall Q (t ++ [e]) /\
          mem w' = apply_events (t ++ [e]) (mem w) /\
          In line check_lines /\
          stderr w' = stderr w +:+ error_message (status_of e) line
    | Undefined => True
    end.

(** A computation without undefined behaviour. *)
Definition total {A} (m : M F A) : Prop := forall w, m w <> Undefined.

(** Every launch of the log has the grid [blocks]. *)
Definition grid_is (blocks : Z) (e : event F) : Prop :=
  match e with
  | EvLaunch _ grid _ _ => grid = blocks
  | _ => True
  end.

End Discipline.

(** ** The kernels the properties below look into

    kernels.cu is not part of the sources at hand.  The three kernels whose
    effect a property depends on are written down from the component
    descriptions of the specification. *)

Definition read_float {F} `{Float32 F} (h : heap F) (a : Z) : F :=
  match h !! a with
  | Some (Flt x) => x
  | _ => f_zero
  end.

Definition read_byte {F} (h : heap F) (a : Z) : Z :=
  match h !! a with
  | Some (Byt b) => b
  | _ => 0
  end.

Definition read_floats {F} `{Float32 F} (h : heap F) (p count : Z) : list F :=
  read_float h <$> seqZ p count.

Fixpoint write_cells {F} (p : Z) (l : list (cell F)) (h : heap F) : heap F :=
  match l with
  | [] => h
  | c :: l' => write_cells (p + 1) l' (<[p := c]> h)
  end.

(** The elements of a buffer of [n] elements that work-group [b] covers when
    a work-group covers [BLOCK_SIZE] elements; fewer in a ragged last
    block, none past the end. *)
Definition valid_items (BLOCK_SIZE n b : Z) : Z :=
  Z.min BLOCK_SIZE (n - b * BLOCK_SIZE).

Section PercentileKernel.
Context {F : Type} `{Float32 F}.

(** What one work-group contributes to the norm from its elements. *)
Variable part : list F -> F.

(** Modelled from the spec: kPercentileClipping is not in the sources at
    hand.  "computes the L2 norm of gradient buffer [g] into that slot"
    (slot [step % 100] of the history), 2048 elements per work-group: each
    work-group adds the contribution of its elements to the slot. *)
Definition kPercentileClipping_body (BLOCK_SIZE : Z) (args : list (arg F))
    (b : Z) (h : heap F) : heap F :=
  match args with
  | [APtr g; APtr gnorm_vec; AInt step; AInt n] =>
      let vals :=
        read_floats h (g + b * BLOCK_SIZE) (valid_items BLOCK_SIZE n b) in
      let slot := gnorm_vec + Z.rem step 100 in
      <[slot := Flt (f_add (read_float h slot) (part vals))]> h
  | _ => h
  end.

(** The norm of the buffer [g] of [n] elements as the work-groups of one
    launch accumulate it from zero. *)
Definition gnorm_of (h : heap F) (g n : Z) : F :=
  foldl (fun acc b =>
           f_add acc (part (read_floats h (g + b * 2048) (valid_items 2048 n b))))
        f_zero (seqZ 0 (num_blocks n 2048)).

(** One call as a function on the memory: slot [step % 100] is replaced by
    the norm of [g]. *)
Definition clip_heap (g gnorm_vec n step : Z) (h : heap F) : heap F :=
  <[gnorm_vec + Z.rem step 100 := Flt (gnorm_of h g n)]> h.

End PercentileKernel.

Section Training.
Context {F : Type} `{Float32 F} `{Device F}.

(** What the caller does to the memory between two calls (a backward pass
    that refills the gradient buffer, say). *)
Definition caller (f : heap F -> heap F) : M F unit :=
  fun w =>
    Returned tt {| mem := f (mem w); trace := trace w; stderr := stderr w;
                   runtime := runtime w |}.

(** A training run: before each step the caller prepares the memory, then
    calls [percentileClipping] with the step number. *)
Fixpoint clipping_history (prepare : Z -> heap F -> heap F) (T : dtype)
    (g gnorm_vec n : Z) (steps : list Z) : M F unit :=
  match steps with
  | [] => ret tt
  | step :: rest =>
      caller (prepare step) ;;
      percentileClipping T g gnorm_vec step n ;;
      clipping_history prepare T g gnorm_vec n rest
  end.

End Training.

(** The memory the call of step [k] finds, in a run that starts from [h0]. *)
Definition heap_seen {F} `{Float32 F} (part : list F -> F)
    (prepare : Z -> heap F -> heap F) (g gnorm_vec n : Z) (h0 : heap F)
    (k : Z) : heap F :=
  prepare k
    (foldl (fun h j => clip_heap part g gnorm_vec n j (prepare j h)) h0 (seqZ 0 k)).

(** *** Blockwise quantization, in exact arithmetic *)

#[export] Instance Float32_Q : Float32 Q := {
  f_zero := 0%Q;
  f_gt := fun a b => negb (Qle_bool a b);
  f_add := Qplus;
  numeric_limits_max := fun T =>
    match T with
    | half => inject_Z 65504
    | float => inject_Z 340282346638528859811704183484516925440
    end
}.

(** The largest magnitude of a block. *)
Definition absmax_of (vals : list Q) : Q :=
  foldl (fun acc v => if Qle_bool (Qabs v) acc then acc else Qabs v) 0%Q vals.

(** The index of the entry of the codebook [cb], scaled by [m], that is
    nearest to [v]; the lowest one among equally near entries. *)
Fixpoint nearest_from (cb : list Q) (m v : Q) (i best : Z) (bestd : Q) : Z :=
  match cb with
  | [] => best
  | c :: cb' =>
      let d := Qabs (v - m * c) in
      if Qle_bool bestd d then nearest_from cb' m v (i + 1) best bestd
      else nearest_from cb' m v (i + 1) i d
  end.

Definition nearest (cb : list Q) (m v : Q) : Z :=
  match cb with
  | [] => 0
  | c :: cb' => nearest_from cb' m v 1 0 (Qabs (v - m * c))
  end.

(** Modelled from the spec: kQuantizeBlockwise is not in the sources at
    hand.  "splits A into blocks of 4096 elements; for each block computes
    absmax, quantizes each element against the shared 256-entry Codebook
    scaled by that block's absmax.  If STOCHASTIC is enabled, adds dithering
    noise drawn from a caller-supplied random sequence ([rand], offset by
    [rand_offset]) before rounding".  The noise is taken in units of the
    block's scale, and element [j] of the buffer is taken to draw entry
    [rand_offset + j] of the sequence; the description leaves both open.
    The arithmetic is exact: the rounding of the floating-point operations
    is not part of the description. *)
Definition kQuantizeBlockwise_body (BLOCK_SIZE STOCHASTIC : Z)
    (args : list (arg Q)) (b : Z) (h : heap Q) : heap Q :=
  match args with
  | [APtr code; APtr A; APtr absmax; APtr out; APtr rand; AInt rand_offset;
     AInt n] =>
      let lo := b * BLOCK_SIZE in
      let vals := read_floats h (A + lo) (valid_items BLOCK_SIZE n b) in
      let m := absmax_of vals in
      let cb := read_floats h code 256 in
      let bytes :=
        if STOCHASTIC =? 0 then (fun v => Byt (nearest cb m v)) <$> vals
        else
          (fun j =>
             Byt (nearest cb m
                    (read_float h (A + j)
                     + m * read_float h (rand + rand_offset + j))%Q))
            <$> seqZ lo (valid_items BLOCK_SIZE n b) in
      write_cells (out + lo) bytes (<[absmax + b := Flt m]> h)
  | _ => h
  end.

(** Modelled from the spec: kDequantizeBlockwise is not in the sources at
    hand.  The "inverse" of the above: "table lookup from byte code to
    float magnitude", with the block's absmax "used to rescale byte codes
    back to real magnitudes"; the block of an element is decided by the
    kernel's own [BLOCK_SIZE]. *)
Definition kDequantizeBlockwise_body (BLOCK_SIZE : Z) (args : list (arg Q))
    (b : Z) (h : heap Q) : heap Q :=
  match args with
  | [APtr code; APtr A; APtr absmax; APtr out; AInt n] =>
      let lo := b * BLOCK_SIZE in
      let m := read_float h (absmax + b) in
      let qs := read_byte h <$> seqZ (A + lo) (valid_items BLOCK_SIZE n b) in
      write_cells (out + lo)
        ((fun q => Flt (read_float h (code + q) * m)%Q) <$> qs) h
  | _ => h
  end.

(** The values of block [b], its largest magnitude, and the byte that stands
    for element [i], all read off a memory [h] that holds the input buffer
    [A] and the codebook [code]. *)
Definition block_values (h : heap Q) (A BLOCK_SIZE n b : Z) : list Q :=
  read_floats h (A + b * BLOCK_SIZE) (valid_items BLOCK_SIZE n b).

Definition block_absmax (h : heap Q) (A BLOCK_SIZE n b : Z) : Q :=
  absmax_of (block_values h A BLOCK_SIZE n b).

Definition quantized (h : heap Q) (code A BLOCK_SIZE n i : Z) : Z :=
  nearest (read_floats h code 256) (block_absmax h A BLOCK_SIZE n (i / BLOCK_SIZE))
    (read_float h (A + i)).

(** Sum of squares, the contribution of a work-group to a squared norm. *)
Definition sum_squares (vals : list Q) : Q :=
  foldl (fun acc v => (acc + v * v)%Q) 0%Q vals.

(** A device whose three kernels above are as described; the kernels that
    no property looks into are left without effect here. *)
#[export] Instance spec_device : Device Q := {
  kernel_body := fun k block args b h =>
    match k with
    | kQuantizeBlockwise _ BLOCK_SIZE _ STOCHASTIC =>
        kQuantizeBlockwise_body BLOCK_SIZE STOCHASTIC args b h
    | kDequantizeBlockwise _ BLOCK_SIZE _ _ => kDequantizeBlockwise_body BLOCK_SIZE args b h
    | kPercentileClipping _ BLOCK_SIZE _ => kPercentileClipping_body sum_squares BLOCK_SIZE args b h
    | _ => h
    end;
  cudaGetErrorString := fun s =>
    if s =? 2 then "out of memory"
    else if s =? 9 then "invalid configuration argument"
    else "unspecified launch failure";
  FILE := "ops.cu"
}.

(** Two address ranges without a common address. *)
Definition apart (r1 r2 : Z * Z) : Prop :=
  r1.1 + r1.2 <= r2.1 \/ r2.1 + r2.2 <= r1.1.

Fixpoint separate (rs : list (Z * Z)) : Prop :=
  match rs with
  | [] => True
  | r :: rs' => Forall (apart r) rs' /\ separate rs'
  end.

(** A codebook is dense enough for a byte of precision when every value of
    [-1, 1] is within 1/127 of one of its entries. *)
Definition dense (cb : list Q) : Prop :=
  forall x : Q, (-1 <= x <= 1)%Q ->
    exists c, In c cb /\ (Qabs (x - c) <= 1 # 127)%Q.

(** A test that implies it: the entries start at or below [-1 + 1/127], end
    at or above [1 - 1/127], and neighbours are at most 2/127 apart. *)
Fixpoint gaps_ok (c : Q) (rest : list Q) : bool :=
  match rest with
  | [] => Qle_bool (1 - (1 # 127)) c
  | c' :: rest' => Qle_bool (c' - c) (2 # 127) && gaps_ok c' rest'
  end.

Definition covers (cb : list Q) : bool :=
  match cb with
  | [] => false
  | c :: rest => Qle_bool c (-1 + (1 # 127)) && gaps_ok c rest
  end.

(** The 256 evenly spaced values from -1 to 1. *)
Definition linear_code : list Q :=
  (fun j => (2 * j - 255) # 255) <$> seqZ 0 256.

(** A memory holding the floats [l] from address [p] on. *)
Definition store_floats (p : Z) (l : list Q) (h : heap Q) : heap Q :=
  write_cells p (Flt <$> l) h.

(** A world with the given memory, an empty log and a quiet runtime. *)
Definition fresh {F} (h : heap F) : world F :=
  {| mem := h; trace := []; stderr := ""; runtime := [] |}.

(** *** Sample memories *)

(** A buffer of 4097 elements (one block of 4096 and a ragged block of one
    element) at address 1000, the evenly spaced codebook at address 0. *)
Definition sample_input : list Q := (fun j => (j - 2000) # 7) <$> seqZ 0 4097.

Definition sample_world : world Q :=
  fresh (store_floats 1000 sample_input (store_floats 0 linear_code ∅)).

(** A buffer of 2049 ones at address 1000, the same codebook, and a scale
    buffer of two zero-initialised entries at address 6000 (as many as a
    partition in blocks of 2048 needs). *)
Definition ragged_world : world Q :=
  fresh (store_floats 6000 [0%Q; 0%Q]
           (store_floats 1000 (replicate 2049 1%Q)
              (store_floats 0 linear_code ∅))).

(** A codebook of 256 entries that only knows -1, 0 and 1. *)
Definition coarse_code : list Q := (-1)%Q :: replicate 254 0%Q ++ [1%Q].

(** The two elements 1 and 1/4 at address 1000, the coarse codebook at
    address 0. *)
Definition coarse_world : world Q :=
  fresh (store_floats 1000 [1%Q; (1 # 4)%Q] (store_floats 0 coarse_code ∅)).

(** The two elements 0 and 1 at address 1000, the evenly spaced codebook at
    address 0, and a random sequence at address 20000 whose first draw is
    1/2. *)
Definition dither_world : world Q :=
  fresh (store_floats 20000 [(1 # 2)%Q]
           (store_floats 1000 [0%Q; 1%Q] (store_floats 0 linear_code ∅))).

(** The two new-max scalars at addresses 100 and 101, holding 5 and 7. *)
Definition maxima_world : world Q :=
  fresh (store_floats 100 [5%Q; 7%Q] ∅).

(** A backward pass that writes three gradients, depending on the step, at
    address 1000. *)
Definition sample_backward (step : Z) (h : heap Q) : heap Q :=
  store_floats 1000 [inject_Z step; 1%Q; (-2)%Q] h.

(** A world whose runtime reports status 2 to the next call. *)
Definition failing_world : world Q :=
  {| mem := ∅; trace := []; stderr := ""; runtime := [2] |}.

(** ** Vocabulary of the properties of the whole dispatch layer *)

(** The template parameters (BLOCK_SIZE, values per thread) of the kernels
    that carry them, and the thread count of the one that carries it. *)
Definition kernel_geometry (k : kernel) : option (Z * Z) :=
  match k with
  | kQuantizeBlockwise _ BLOCK_SIZE NUM_PER_TH _ => Some (BLOCK_SIZE, NUM_PER_TH)
  | kDequantizeBlockwise _ BLOCK_SIZE _ NUM_PER_TH => Some (BLOCK_SIZE, NUM_PER_TH)
  | kPreconditionOptimizer32bit2State _ _ BLOCK_SIZE NUM_VALS => Some (BLOCK_SIZE, NUM_VALS)
  | kPreconditionOptimizer32bit1State _ _ BLOCK_SIZE NUM_VALS => Some (BLOCK_SIZE, NUM_VALS)
  | kOptimizerStatic8bit2StateBlockwise _ _ BLOCK_SIZE N_PER_TH => Some (BLOCK_SIZE, N_PER_TH)
  | kOptimizerStatic8bit1StateBlockwise _ _ BLOCK_SIZE N_PER_TH => Some (BLOCK_SIZE, N_PER_TH)
  | kPercentileClipping _ BLOCK_SIZE NUM_VALS => Some (BLOCK_SIZE, NUM_VALS)
  | _ => None
  end.

Definition kernel_threads (k : kernel) : option Z :=
  match k with
  | kDequantizeBlockwise _ _ THREADS _ => Some THREADS
  | _ => None
  end.

(** A launch whose configuration agrees with the template parameters of its
    kernel: the threads of a work-group, each handling its number of
    values, cover one block, and the grid is the block count of a buffer of
    [n] elements. *)
Definition well_shaped {F} (n : Z) (e : event F) : Prop :=
  match e with
  | EvLaunch k grid block _ =>
      match kernel_geometry k with
      | Some (BLOCK_SIZE, per_thread) =>
          block * per_thread = BLOCK_SIZE /\ grid = num_blocks n BLOCK_SIZE
      | None => True
      end /\
      match kernel_threads k with
      | Some THREADS => block = THREADS
      | None => True
      end
  | _ => True
  end.

(** A [cudaMemset] that zeroes one of the listed buffers (address, number
    of floats) in full. *)
Definition zeroes_among {F} (ws : list (Z * Z)) (e : event F) : Prop :=
  match e with
  | EvMemset devPtr value count _ =>
      value = 0 /\ In (devPtr, Z.quot count sizeof_float) ws
  | _ => True
  end.

(** No work-group of a launch of the log runs. *)
Definition idle_launch {F} (e : event F) : Prop :=
  match e with
  | EvLaunch _ grid _ _ => grid <= 0
  | _ => True
  end.

(** The explicit instantiations of [optimizer32bit]
    ([MAKE_optimizer32bit(name, gtype)]) and of
    [optimizerStatic8bitBlockwise]
    ([MAKE_optimizerStatic8bitBlockwise(gtype, optim_name)]), in source
    order, as (kind, element type). *)
Definition optimizer32bit_instantiations : list (Z * dtype) :=
  [ (ADAM, half); (ADAM, float);
    (MOMENTUM, half); (MOMENTUM, float);
    (RMSPROP, half); (RMSPROP, float);
    (ADAGRAD, half); (ADAGRAD, float) ].

Definition optimizerStatic8bitBlockwise_instantiations : list (Z * dtype) :=
  [ (ADAM, half); (ADAM, float);
    (MOMENTUM, half); (MOMENTUM, float);
    (RMSPROP, half); (RMSPROP, float);
    (ADAGRAD, half); (ADAGRAD, float) ].

Section WholeLayer.
Context {F : Type} `{Float32 F} `{Device F}.

(** The buffers (address, number of floats) a routine may zero from the
    host. *)
Inductive host_zeroes : list (Z * Z) -> M F unit -> Prop :=
  | Z_histogramScatterAdd2D histogram index1 index2 src maxidx1 n :
      host_zeroes [] (histogramScatterAdd2D histogram index1 index2 src maxidx1 n)
  | Z_estimateQuantiles T A code offset n :
      host_zeroes [(code, 256)] (estimateQuantiles T A code offset n)
  | Z_quantize code A out n :
      host_zeroes [] (quantize code A out n)
  | Z_dequantize code A out n :
      host_zeroes [] (dequantize code A out n)
  | Z_quantizeBlockwise T STOCHASTIC code A absmax out rand rand_offset n :
      host_zeroes []
        (quantizeBlockwise T STOCHASTIC code A absmax out rand rand_offset n)
  | Z_dequantizeBlockwise T code A absmax out blocksize n :
      host_zeroes [] (dequantizeBlockwise T code A absmax out blocksize n)
  | Z_optimizer32bit T OPTIMIZER g p state1 state2 unorm max_unorm param_norm
      beta1 beta2 eps weight_decay step lr gnorm_scale skip_zeros n :
      host_zeroes [(unorm, 1)]
        (optimizer32bit T OPTIMIZER g p state1 state2 unorm max_unorm param_norm
           beta1 beta2 eps weight_decay step lr gnorm_scale skip_zeros n)
  | Z_optimizerStatic8bit T OPTIMIZER p g state1 state2 unorm max_unorm param_norm
      beta1 beta2 eps step lr quantiles1 quantiles2 max1 max2 new_max1 new_max2
      weight_decay gnorm_scale n :
      host_zeroes [(unorm, 1); (new_max1, 1); (new_max2, 1)]
        (optimizerStatic8bit T OPTIMIZER p g state1 state2 unorm max_unorm param_norm
           beta1 beta2 eps step lr quantiles1 quantiles2 max1 max2 new_max1 new_max2
           weight_decay gnorm_scale n)
  | Z_optimizerStatic8bitBlockwise T OPTIMIZER p g state1 state2 beta1 beta2 eps
      step lr quantiles1 quantiles2 absmax1 absmax2 weight_decay gnorm_scale
      skip_zeros n :
      host_zeroes []
        (optimizerStatic8bitBlockwise T OPTIMIZER p g state1 state2 beta1 beta2 eps
           step lr quantiles1 quantiles2 absmax1 absmax2 weight_decay gnorm_scale
           skip_zeros n)
  | Z_percentileClipping T g gnorm_vec step n :
      host_zeroes [(gnorm_vec + Z.rem step 100, 1)]
        (percentileClipping T g gnorm_vec step n).

(** A caller that makes one call after the other. *)
Fixpoint call_sequence (calls : list (M F unit)) : M F unit :=
  match calls with
  | [] => ret tt
  | call :: rest => call ;; call_sequence rest
  end.

End WholeLayer.

(** The kernel, the grid and the threads per work-group of the launches of
    a log, in order. *)
Fixpoint launch_shapes {F} (t : list (event F)) : list (kernel * Z * Z) :=
  match t with
  | [] => []
  | EvLaunch k grid block _ :: rest => (k, grid, block) :: launch_shapes rest
  | _ :: rest => launch_shapes rest
  end.

(** Kernels with their threads per work-group, all on the same grid. *)
Definition on_grid (blocks : Z) (ks : list (kernel * Z)) : list (kernel * Z * Z) :=
  (fun kb => (kb.1, blocks, kb.2)) <$> ks.

(** The kernels each routine with a dispatch launches, with their threads
    per work-group, in the order of the launches: the branches of
    [dequantizeBlockwise] and the cases of the three optimizers. *)
Definition dequantizeBlockwise_kernels (T : dtype) (blocksize : Z) : list (kernel * Z) :=
  if blocksize =? 4096 then [(kDequantizeBlockwise T 4096 1024 4, 1024)]
  else if blocksize =? 2048 then [(kDequantizeBlockwise T 2048 512 4, 512)]
  else [].

Definition optimizer32bit_kernels {F} `{Float32 F} (T : dtype) (OPTIMIZER : Z)
    (max_unorm : F) : list (kernel * Z) :=
  if OPTIMIZER =? ADAM then
    (if f_gt max_unorm f_zero
     then [(kPreconditionOptimizer32bit2State T OPTIMIZER 4096 8, 512)]
     else [])
    ++ [(kOptimizer32bit2State T OPTIMIZER, 1024)]
  else if (OPTIMIZER =? MOMENTUM) || (OPTIMIZER =? RMSPROP) || (OPTIMIZER =? ADAGRAD) then
    (if f_gt max_unorm f_zero
     then [(kPreconditionOptimizer32bit1State T OPTIMIZER 4096 8, 512)]
     else [])
    ++ [(kOptimizer32bit1State T OPTIMIZER, 1024)]
  else [].

Definition optimizerStatic8bit_kernels (T : dtype) (OPTIMIZER : Z) : list (kernel * Z) :=
  if OPTIMIZER =? ADAM then
    [(kPreconditionOptimizerStatic8bit2State T OPTIMIZER, 256);
     (kOptimizerStatic8bit2State T OPTIMIZER, 1024)]
  else if (OPTIMIZER =? MOMENTUM) || (OPTIMIZER =? RMSPROP) || (OPTIMIZER =? ADAGRAD) then
    [(kPreconditionOptimizerStatic8bit1State T OPTIMIZER, 256);
     (kOptimizerStatic8bit1State T OPTIMIZER, 1024)]
  else [].

Definition optimizerStatic8bitBlockwise_kernels (T : dtype) (OPTIMIZER : Z) : list (kernel * Z) :=
  if OPTIMIZER =? ADAM then
    [(kOptimizerStatic8bit2StateBlockwise T OPTIMIZER 2048 8, 256)]
  else if (OPTIMIZER =? MOMENTUM) || (OPTIMIZER =? RMSPROP) || (OPTIMIZER =? ADAGRAD) then
    [(kOptimizerStatic8bit1StateBlockwise T OPTIMIZER 2048 8, 256)]
  else [].

Section Launches.
Context {F : Type} `{Float32 F} `{Device F}.

(** The host routines of ops.cu, each with its element count, the number
    of elements one work-group covers, and the kernels it launches when no
    runtime call fails. *)
Inductive routine_kernels : Z -> Z -> list (kernel * Z) -> M F unit -> Prop :=
  | K_histogramScatterAdd2D histogram index1 index2 src maxidx1 n :
      routine_kernels n 512 [(kHistogramScatterAdd2D, 512)]
        (histogramScatterAdd2D histogram index1 index2 src maxidx1 n)
  | K_estimateQuantiles T A code offset n :
      routine_kernels n 4096 [(kEstimateQuantiles T, 512)]
        (estimateQuantiles T A code offset n)
  | K_quantize code A out n :
      routine_kernels n 1024 [(kQuantize, 1024)] (quantize code A out n)
  | K_dequantize code A out n :
      routine_kernels n 1024 [(kDequantize, 1024)] (dequantize code A out n)
  | K_quantizeBlockwise T STOCHASTIC code A absmax out rand rand_offset n :
      routine_kernels n 4096 [(kQuantizeBlockwise T 4096 4 STOCHASTIC, 1024)]
        (quantizeBlockwise T STOCHASTIC code A absmax out rand rand_offset n)
  | K_dequantizeBlockwise T code A absmax out blocksize n :
      routine_kernels n blocksize (dequantizeBlockwise_kernels T blocksize)
        (dequantizeBlockwise T code A absmax out blocksize n)
  | K_optimizer32bit T OPTIMIZER g p state1 state2 unorm max_unorm param_norm
      beta1 beta2 eps weight_decay step lr gnorm_scale skip_zeros n :
      routine_kernels n 4096 (optimizer32bit_kernels T OPTIMIZER max_unorm)
        (optimizer32bit T OPTIMIZER g p state1 state2 unorm max_unorm param_norm
           beta1 beta2 eps weight_decay step lr gnorm_scale skip_zeros n)
  | K_optimizerStatic8bit T OPTIMIZER p g state1 state2 unorm max_unorm param_norm
      beta1 beta2 eps step lr quantiles1 quantiles2 max1 max2 new_max1 new_max2
      weight_decay gnorm_scale n :
      routine_kernels n 4096 (optimizerStatic8bit_kernels T OPTIMIZER)
        (optimizerStatic8bit T OPTIMIZER p g state1 state2 unorm max_unorm param_norm
           beta1 beta2 eps step lr quantiles1 quantiles2 max1 max2 new_max1 new_max2
           weight_decay gnorm_scale n)
  | K_optimizerStatic8bitBlockwise T OPTIMIZER p g state1 state2 beta1 beta2 eps
      step lr quantiles1 quantiles2 absmax1 absmax2 weight_decay gnorm_scale
      skip_zeros n :
      routine_kernels n 2048 (optimizerStatic8bitBlockwise_kernels T OPTIMIZER)
        (optimizerStatic8bitBlockwise T OPTIMIZER p g state1 state2 beta1 beta2 eps
           step lr quantiles1 quantiles2 absmax1 absmax2 weight_decay gnorm_scale
           skip_zeros n)
  | K_percentileClipping T g gnorm_vec step n :
      routine_kernels n 2048 [(kPercentileClipping T 2048 4, 512)]
        (percentileClipping T g gnorm_vec step n).

(** A computation that launches the kernels [ks], in this order, when it
    returns, and the first of them when it ends the process. *)
Definition launching (ks : list (kernel * Z * Z)) (m : M F unit) : Prop :=
  forall w,
    match m w with
    | Returned _ w' =>
        exists t, trace w' = trace w ++ t /\ launch_shapes t = ks
    | Exited _ w' =>
        exists t, trace w' = trace w ++ t /\ launch_shapes t `prefix_of` ks
    | Undefined => True
    end.

End Launches.

(** * Properties *)

(** ** Block counts *)

Lemma num_blocks_is_ceil n E :
  0 <= n -> 0 < E -> is_ceil (num_blocks n E) n E.
Proof.
  intros Hn HE. unfold is_ceil, num_blocks.
  rewrite Z.quot_div_nonneg, Z.rem_mod_nonneg by lia.
  pose proof (Z.div_mod n E ltac:(lia)) as Hdm.
  pose proof (Z.mod_pos_bound n E HE) as Hb.
  destruct (Z.eqb_spec (n mod E) 0); nia.
Qed.

Lemma is_ceil_unique g g' n E :
  0 < E -> is_ceil g n E -> is_ceil g' n E -> g = g'.
Proof. unfold is_ceil. intros. nia. Qed.

Lemma num_blocks_0 E : num_blocks 0 E = 0.
Proof. reflexivity. Qed.

Lemma num_blocks_int_range n E :
  int_range n -> 0 < E -> int_range (num_blocks n E).
Proof.
  unfold int_range, num_blocks, INT_MIN, INT_MAX. intros Hn HE.
  pose proof (Z.quot_rem' n E) as Hqr.
  destruct (Z.eqb_spec (Z.rem n E) 0) as [Hr|Hr].
  - rewrite Hr in Hqr. nia.
  - destruct (Z.le_gt_cases 0 n) as [Hpos|Hneg].
    + pose proof (Z.rem_bound_pos n E Hpos HE). nia.
    + pose proof (Z.rem_bound_abs n E ltac:(lia)). nia.
Qed.

(** ** Stepping through a routine when the runtime reports success *)

Section QuietRuns.
Context {F : Type} `{Float32 F} `{Device F}.

Lemma quiet_next (m : heap F) t e (r : list Z) :
  all_success r ->
  next_status (World m t e r) = (cudaSuccess, tail r).
Proof.
  unfold all_success, next_status; simpl. intros Hq.
  destruct r as [|s r]; [reflexivity|].
  inversion Hq; subst. reflexivity.
Qed.

Lemma all_success_tail (r : list Z) : all_success r -> all_success (tail r).
Proof.
  unfold all_success. intros Hq. destruct r; [constructor|].
  inversion Hq; assumption.
Qed.

Lemma bind_launch {B} k grid block args (f : unit -> M F B) m t e r :
  bind (launch k grid block args) f (World m t e r) =
  f tt (World (run_grid k grid block args m)
              (t ++ [EvLaunch k grid block args]) e r).
Proof. reflexivity. Qed.

Lemma check_memset_quiet line p count m t e r :
  all_success r ->
  CUDA_CHECK_RETURN line (cudaMemset p 0 count) (World m t e r) =
  Returned tt (World (zero_cells p (Z.quot count sizeof_float) m)
                     (t ++ [EvMemset p 0 count cudaSuccess]) e (tail r)).
Proof.
  intros Hq. unfold CUDA_CHECK_RETURN, bind, cudaMemset.
  rewrite (quiet_next _ _ _ _ Hq). reflexivity.
Qed.

Lemma check_peek_quiet line m t e r :
  all_success r ->
  CUDA_CHECK_RETURN line cudaPeekAtLastError (World m t e r) =
  Returned tt (World m (t ++ [EvPeek cudaSuccess]) e (tail r)).
Proof.
  intros Hq. unfold CUDA_CHECK_RETURN, bind, cudaPeekAtLastError.
  rewrite (quiet_next _ _ _ _ Hq). reflexivity.
Qed.

Lemma bind_check_memset_quiet {B} line p count (f : unit -> M F B) m t e r :
  all_success r ->
  bind (CUDA_CHECK_RETURN line (cudaMemset p 0 count)) f (World m t e r) =
  f tt (World (zero_cells p (Z.quot count sizeof_float) m)
              (t ++ [EvMemset p 0 count cudaSuccess]) e (tail r)).
Proof.
  intros Hq. unfold bind at 1. rewrite check_memset_quiet by assumption.
  reflexivity.
Qed.

Lemma bind_check_peek_quiet {B} line (f : unit -> M F B) m t e r :
  all_success r ->
  bind (CUDA_CHECK_RETURN line cudaPeekAtLastError) f (World m t e r) =
  f tt (World m (t ++ [EvPeek cudaSuccess]) e (tail r)).
Proof.
  intros Hq. unfold bind at 1. rewrite check_peek_quiet by assumption.
  reflexivity.
Qed.

Lemma bind_ret {A B} (a : A) (f : A -> M F B) w : bind (ret a) f w = f a w.
Proof. reflexivity. Qed.

Lemma bind_assoc {A B C} (m : M F A) (f : A -> M F B) (g : B -> M F C) w :
  bind (bind m f) g w = bind m (fun a => bind (f a) g) w.
Proof. unfold bind. destruct (m w); reflexivity. Qed.

Lemma zero_cells_one p (h : heap F) :
  zero_cells p (Z.quot (1 * sizeof_float) sizeof_float) h = <[p := Flt f_zero]> h.
Proof.
  unfold zero_cells. change (Z.quot (1 * sizeof_float) sizeof_float) with 1.
  simpl. rewrite Z.add_0_r. reflexivity.
Qed.

Lemma run_grid_0 k block args (h : heap F) : run_grid k 0 block args h = h.
Proof. reflexivity. Qed.

End QuietRuns.

(** One step of a routine under a quiet runtime. *)
Ltac quiet_step :=
  first
    [ rewrite bind_launch
    | rewrite bind_check_memset_quiet by eauto using all_success_tail
    | rewrite bind_check_peek_quiet by eauto using all_success_tail
    | rewrite check_memset_quiet by eauto using all_success_tail
    | rewrite check_peek_quiet by eauto using all_success_tail
    | rewrite bind_assoc
    | rewrite bind_ret ].

Ltac quiet_run := repeat quiet_step.

(** ** The 32-bit optimizer *)

Section Optimizer32bit.
Context {F : Type} `{Float32 F} `{Device F}.

(** C1.  For each of ADAM, MOMENTUM, RMSPROP and ADAGRAD, a call to
    [optimizer32bit] whose runtime calls succeed does the following and
    nothing else: when [max_unorm > 0], it zeroes [unorm], launches a
    precondition kernel and queries the last error; then, in every case, it
    launches the update kernel (after the precondition phase when there is
    one) and queries the last error. *)
Theorem optimizer32bit_two_phases T OPTIMIZER g p state1 state2 unorm
    max_unorm param_norm beta1 beta2 eps weight_decay step lr gnorm_scale
    skip_zeros n (w : world F) :
  In OPTIMIZER [ADAM; MOMENTUM; RMSPROP; ADAGRAD] ->
  quiet w ->
  exists w' kpre kmain args_pre args_main,
    optimizer32bit T OPTIMIZER g p state1 state2 unorm max_unorm param_norm
      beta1 beta2 eps weight_decay step lr gnorm_scale skip_zeros n w
    = Returned tt w' /\
    precondition_kernel kpre = true /\
    update_kernel kmain = true /\
    trace w' =
      trace w
      ++ (if f_gt max_unorm f_zero
          then [EvMemset unorm 0 (1 * sizeof_float) cudaSuccess;
                EvLaunch kpre (num_blocks n 4096) 512 args_pre;
                EvPeek cudaSuccess]
          else [])
      ++ [EvLaunch kmain (num_blocks n 4096) 1024 args_main;
          EvPeek cudaSuccess] /\
    mem w' =
      run_grid kmain (num_blocks n 4096) 1024 args_main
        (if f_gt max_unorm f_zero
         then run_grid kpre (num_blocks n 4096) 512 args_pre
                (<[unorm := Flt f_zero]> (mem w))
         else mem w) /\
    stderr w' = stderr w.
Proof.
  intros Hopt Hq. destruct w as [m t e r]. simpl in Hopt.
  unfold quiet in Hq; simpl in Hq.
  unfold optimizer32bit.
  destruct Hopt as [<-|[<-|[<-|[<-|[]]]]]; simpl (_ =? _); simpl (_ || _);
    cbv iota; destruct (f_gt max_unorm f_zero); quiet_run;
    rewrite ?zero_cells_one;
    first
      [ eexists _, (kPreconditionOptimizer32bit2State T ADAM 4096 8),
          (kOptimizer32bit2State T ADAM), _, _;
        (split; [reflexivity|]); simpl; rewrite <- ?app_assoc; simpl;
        repeat split; reflexivity
      | eexists _, (kPreconditionOptimizer32bit1State T _ 4096 8),
          (kOptimizer32bit1State T _), _, _;
        (split; [reflexivity|]); simpl; rewrite <- ?app_assoc; simpl;
        repeat split; reflexivity ].
  Unshelve. all: first [exact [] | exact ADAM].
Qed.

End Optimizer32bit.

(** ** The contract of every routine, whatever the runtime reports *)

Ltac seg_close :=
  repeat split; auto; try (simpl; tauto);
  try (intros ? ?; simpl in *; tauto).

Section Segments.
Context {F : Type} `{Float32 F} `{Device F}.

Lemma launches_checked_app (t1 t2 : list (event F)) :
  launches_checked t1 = true -> launches_checked t2 = true ->
  launches_checked (t1 ++ t2) = true.
Proof.
  intros H1 H2. induction t1 as [|e t1 IH]; [assumption|].
  destruct e; simpl in *; try (apply IH; assumption).
  destruct t1 as [|e' t1']; [discriminate|].
  destruct e'; try discriminate. simpl app at 1. apply IH, H1.
Qed.

Lemma apply_events_app (t1 t2 : list (event F)) h :
  apply_events (t1 ++ t2) h = apply_events t2 (apply_events t1 h).
Proof. unfold apply_events. apply foldl_app. Qed.

Lemma segment_ext Q (m m' : M F unit) :
  (forall w, m w = m' w) -> segment Q m -> segment Q m'.
Proof. intros E S w. rewrite <- E. apply S. Qed.

Lemma segment_ret Q : segment Q (ret tt).
Proof.
  intros w. simpl. exists []. rewrite app_nil_r.
  repeat split; auto.
Qed.

Lemma segment_bind Q (m1 : M F unit) (k : unit -> M F unit) :
  segment Q m1 -> (forall a, segment Q (k a)) -> segment Q (bind m1 k).
Proof.
  intros S1 S2 w. unfold bind. specialize (S1 w).
  destruct (m1 w) as [a w1|st w1|]; [|exact S1|exact I].
  destruct S1 as (t1 & Ht1 & Hs1 & Hc1 & HQ1 & Hm1 & He1 & Hr1).
  specialize (S2 a w1).
  destruct (k a w1) as [b w2|st w2|]; [| |exact I].
  - destruct S2 as (t2 & Ht2 & Hs2 & Hc2 & HQ2 & Hm2 & He2 & Hr2).
    exists (t1 ++ t2). rewrite Ht2, Ht1, Hm2, Hm1, He2, He1, app_assoc.
    repeat split; auto using launches_checked_app;
      try (apply Forall_app; split; assumption).
    symmetry. apply apply_events_app.
  - destruct S2 as (-> & t2 & e & line & Ht2 & Hs2 & Hne & Hin & Hc2 & HQ2 & Hm2 & Hl & He2).
    split; [reflexivity|]. exists (t1 ++ t2), e, line.
    rewrite Ht2, Ht1, Hm2, Hm1, He2, He1, <- !app_assoc.
    repeat split; auto using launches_checked_app;
      try (apply Forall_app; split; assumption).
    symmetry. apply apply_events_app.
Qed.

Lemma segment_check_memset Q line p count :
  In line check_lines ->
  (forall s, Q (EvMemset p 0 count s)) ->
  segment Q (CUDA_CHECK_RETURN line (cudaMemset p 0 count)).
Proof.
  intros Hl HQ w. unfold CUDA_CHECK_RETURN, bind, cudaMemset. simpl (0 =? 0).
  cbv iota. unfold next_status.
  destruct (runtime w) as [|s r] eqn:Hr.
  - simpl. exists [EvMemset p 0 count cudaSuccess].
    seg_close.
  - destruct (Z.eqb_spec s cudaSuccess) as [->|Hne]; simpl.
    + exists [EvMemset p 0 count cudaSuccess].
      seg_close.
    + split; [reflexivity|].
      exists [], (EvMemset p 0 count s), line. simpl.
      destruct (Z.eqb_spec s cudaSuccess) as [->|_]; [contradiction|].
      seg_close.
Qed.

Lemma segment_check_peek Q line :
  In line check_lines ->
  (forall s, Q (EvPeek s)) ->
  segment Q (CUDA_CHECK_RETURN line cudaPeekAtLastError).
Proof.
  intros Hl HQ w. unfold CUDA_CHECK_RETURN, bind, cudaPeekAtLastError.
  unfold next_status.
  destruct (runtime w) as [|s r] eqn:Hr.
  - simpl. exists [EvPeek cudaSuccess].
    seg_close.
  - destruct (Z.eqb_spec s cudaSuccess) as [->|Hne]; simpl.
    + exists [EvPeek cudaSuccess].
      seg_close.
    + split; [reflexivity|].
      exists [], (EvPeek s), line. simpl.
      seg_close.
Qed.

Lemma segment_launch_check Q k grid block args line :
  In line check_lines ->
  Q (EvLaunch k grid block args) -> (forall s, Q (EvPeek s)) ->
  segment Q (launch k grid block args ;;
             CUDA_CHECK_RETURN line cudaPeekAtLastError).
Proof.
  intros Hl HQl HQp w.
  unfold bind at 1, launch, CUDA_CHECK_RETURN, bind, cudaPeekAtLastError.
  unfold next_status; simpl runtime.
  destruct (runtime w) as [|s r] eqn:Hr.
  - simpl. exists [EvLaunch k grid block args; EvPeek cudaSuccess].
    rewrite <- app_assoc. seg_close.
  - destruct (Z.eqb_spec s cudaSuccess) as [->|Hne]; simpl.
    + exists [EvLaunch k grid block args; EvPeek cudaSuccess].
      rewrite <- app_assoc. seg_close.
    + split; [reflexivity|].
      exists [EvLaunch k grid block args], (EvPeek s), line. simpl.
      rewrite <- app_assoc. seg_close.
Qed.

Lemma segment_launch_check_then Q k grid block args line (rest : M F unit) :
  In line check_lines ->
  Q (EvLaunch k grid block args) -> (forall s, Q (EvPeek s)) ->
  segment Q rest ->
  segment Q (launch k grid block args ;;
             CUDA_CHECK_RETURN line cudaPeekAtLastError ;; rest).
Proof.
  intros Hl HQl HQp S.
  apply (segment_ext Q
           (bind (launch k grid block args ;;
                  CUDA_CHECK_RETURN line cudaPeekAtLastError)
                 (fun _ => rest))).
  - intros w. apply bind_assoc.
  - apply segment_bind; [apply segment_launch_check; assumption|].
    intros _. exact S.
Qed.

Lemma segment_checked {A} Q (o : option A) (k : A -> M F unit) :
  (forall a, o = Some a -> segment Q (k a)) ->
  segment Q (bind (checked o) k).
Proof.
  intros S w. unfold bind, checked. destruct o as [a|]; [|exact I].
  apply (S a eq_refl).
Qed.

Lemma c_div_Some n d q : c_div n d = Some q -> q = Z.quot n d.
Proof. unfold c_div. destruct (_ || _); congruence. Qed.

Lemma c_rem_Some n d r : c_rem n d = Some r -> r = Z.rem n d.
Proof. unfold c_rem. destruct (_ || _); congruence. Qed.

Ltac seg :=
  repeat first
    [ apply segment_launch_check;
      [simpl; tauto | reflexivity | intros; exact I]
    | apply segment_launch_check_then;
      [simpl; tauto | reflexivity | intros; exact I | ]
    | apply segment_check_memset; [simpl; tauto | intros; exact I]
    | apply segment_check_peek; [simpl; tauto | intros; exact I]
    | apply segment_ret
    | apply segment_bind; [ | intros _]
    | match goal with
      | |- segment _ (if ?b then _ else _) => destruct b
      end ].

(** Every routine keeps the contract, and each of its launches has the grid
    its first two lines compute. *)
Lemma routine_segment n E (m : M F unit) :
  routine n E m -> segment (grid_is (num_blocks n E)) m.
Proof.
  destruct 1;
    unfold histogramScatterAdd2D, estimateQuantiles, quantize, dequantize,
      quantizeBlockwise, optimizer32bit, optimizerStatic8bit,
      optimizerStatic8bitBlockwise, percentileClipping;
    cbv zeta; try (seg; fail).
  unfold dequantizeBlockwise.
  apply segment_checked; intros q Hq. apply segment_checked; intros r Hr.
  apply c_div_Some in Hq. apply c_rem_Some in Hr. subst q r.
  fold (num_blocks n blocksize).
  destruct (blocksize =? 4096); [|destruct (blocksize =? 2048)]; seg.
Qed.

Lemma total_bind {A B} (m : M F A) (k : A -> M F B) :
  total m -> (forall a, total (k a)) -> total (bind m k).
Proof.
  intros T1 T2 w. unfold bind. specialize (T1 w).
  destruct (m w); [apply T2|discriminate|contradiction].
Qed.

Lemma total_ret {A} (a : A) : total (ret (F:=F) a).
Proof. intros w; discriminate. Qed.

Lemma total_launch k grid block args : total (launch k grid block args).
Proof. intros w; discriminate. Qed.

Lemma total_check line (value : M F Z) :
  total value -> total (CUDA_CHECK_RETURN line value).
Proof.
  intros T. unfold CUDA_CHECK_RETURN. apply total_bind; [exact T|].
  intros s w. destruct (negb _); discriminate.
Qed.

Lemma total_memset p count : total (F:=F) (cudaMemset p 0 count).
Proof.
  intros w. unfold cudaMemset. simpl. destruct (next_status w). discriminate.
Qed.

Lemma total_peek : total (F:=F) cudaPeekAtLastError.
Proof.
  intros w. unfold cudaPeekAtLastError. destruct (next_status w). discriminate.
Qed.

Lemma total_checked {A} (o : option A) : is_Some o -> total (checked (F:=F) o).
Proof. intros [a ->] w. discriminate. Qed.

Ltac tot :=
  repeat match goal with
    | |- @total _ _ (bind _ _) => apply total_bind; [ | intros ?]
    | |- @total _ _ (CUDA_CHECK_RETURN _ _) => apply total_check
    | |- @total _ _ (launch _ _ _ _) => apply total_launch
    | |- @total _ _ (ret _) => apply total_ret
    | |- @total _ _ (cudaMemset _ _ _) => apply total_memset
    | |- @total _ _ cudaPeekAtLastError => apply total_peek
    | |- @total _ _ (if ?b then _ else _) => destruct b
    end.

(** Only a zero block size, or [INT_MIN / -1], is undefined. *)
Lemma routine_total n E (m : M F unit) :
  routine n E m -> E <> 0 -> ~ (n = INT_MIN /\ E = -1) -> total m.
Proof.
  intros Hr HE Hov.
  destruct Hr as [ | | | | |T code A absmax out blocksize n| | | | ];
    unfold histogramScatterAdd2D, estimateQuantiles, quantize, dequantize,
      quantizeBlockwise, optimizer32bit, optimizerStatic8bit,
      optimizerStatic8bitBlockwise, percentileClipping;
    cbv zeta; try (tot; fail).
  unfold dequantizeBlockwise.
  assert ((blocksize =? 0) || ((n =? INT_MIN) && (blocksize =? -1)) = false)
    as Hg.
  { destruct (Z.eqb_spec blocksize 0); [contradiction|].
    destruct (Z.eqb_spec n INT_MIN); [|reflexivity].
    destruct (Z.eqb_spec blocksize (-1)); [|reflexivity].
    exfalso. apply Hov. split; assumption. }
  apply total_bind; [apply total_checked; unfold c_div; rewrite Hg; eauto|].
  intros q. apply total_bind; [apply total_checked; unfold c_rem; rewrite Hg; eauto|].
  intros r. tot.
Qed.

(** Under a quiet runtime a routine cannot end the process. *)
Lemma segment_quiet Q (m : M F unit) w :
  segment Q m -> quiet w -> forall st w', m w <> Exited st w'.
Proof.
  intros S Hq st w' E. specialize (S w). rewrite E in S.
  destruct S as (_ & t & e & line & _ & _ & Hne & Hin & _).
  unfold quiet, all_success in Hq. rewrite Forall_forall in Hq.
  apply Hne, Hq, list_elem_of_In, Hin.
Qed.

Lemma zero_work_is_replay (t : list (event F)) h :
  Forall (grid_is 0) t -> apply_events t h = replay_memsets t h.
Proof.
  unfold apply_events, replay_memsets. intros Hz. revert h.
  induction Hz as [|e t He _ IH]; intros h; [reflexivity|].
  simpl. destruct e; simpl in He; subst; try apply IH.
Qed.

End Segments.

(** ** The kernels a call launches *)

Section LaunchedKernels.
Context {F : Type} `{Float32 F} `{Device F}.

Lemma launch_shapes_app (t1 t2 : list (event F)) :
  launch_shapes (t1 ++ t2) = launch_shapes t1 ++ launch_shapes t2.
Proof.
  induction t1 as [|e t1 IH]; [reflexivity|].
  destruct e; cbn [app launch_shapes]; rewrite IH; reflexivity.
Qed.

Lemma launch_shapes_grid (t : list (event F)) blocks :
  Forall (grid_is blocks) t ->
  Forall (fun s => s.1.2 = blocks) (launch_shapes t).
Proof.
  induction 1 as [|e t He _ IH]; [constructor|].
  destruct e; cbn [launch_shapes]; try exact IH.
  constructor; [exact He|exact IH].
Qed.

Lemma launching_ext ks ks' (m : M F unit) :
  launching ks m -> ks = ks' -> launching ks' m.
Proof. intros L <-. exact L. Qed.

Lemma launching_ret : launching [] (ret (F := F) tt).
Proof. intros w. exists []. rewrite app_nil_r. split; reflexivity. Qed.

Lemma launching_bind ks1 ks2 (m1 : M F unit) (k : unit -> M F unit) :
  launching ks1 m1 -> (forall a, launching ks2 (k a)) ->
  launching (ks1 ++ ks2) (bind m1 k).
Proof.
  intros L1 L2 w. unfold bind. specialize (L1 w).
  destruct (m1 w) as [a w1|st w1|]; [| |exact I].
  - destruct L1 as (t1 & Ht1 & Hs1). specialize (L2 a w1).
    destruct (k a w1) as [b w2|st w2|]; [| |exact I].
    + destruct L2 as (t2 & Ht2 & Hs2). exists (t1 ++ t2).
      rewrite Ht2, Ht1, app_assoc, launch_shapes_app, Hs1, Hs2.
      split; reflexivity.
    + destruct L2 as (t2 & Ht2 & Hs2). exists (t1 ++ t2).
      rewrite Ht2, Ht1, app_assoc, launch_shapes_app, Hs1.
      split; [reflexivity|]. apply prefix_app, Hs2.
  - destruct L1 as (t1 & Ht1 & Hs1). exists t1.
    split; [exact Ht1|]. apply prefix_app_r, Hs1.
Qed.

Lemma launching_launch k grid block args :
  launching [(k, grid, block)] (launch k grid block args).
Proof. intros w. exists [EvLaunch k grid block args]. split; reflexivity. Qed.

Lemma launching_check_memset line p count :
  launching [] (CUDA_CHECK_RETURN line (cudaMemset p 0 count)).
Proof.
  intros w. unfold CUDA_CHECK_RETURN, bind, cudaMemset. simpl (0 =? 0).
  cbv iota. destruct (next_status w) as [s r].
  destruct (negb (s =? cudaSuccess)); simpl;
    exists [EvMemset p 0 count s]; split; reflexivity.
Qed.

Lemma launching_check_peek line :
  launching [] (CUDA_CHECK_RETURN line cudaPeekAtLastError).
Proof.
  intros w. unfold CUDA_CHECK_RETURN, bind, cudaPeekAtLastError.
  destruct (next_status w) as [s r].
  destruct (negb (s =? cudaSuccess)); simpl;
    exists [EvPeek s]; split; reflexivity.
Qed.

Lemma launching_checked {A} ks (o : option A) (k : A -> M F unit) :
  (forall a, o = Some a -> launching ks (k a)) ->
  launching ks (bind (checked o) k).
Proof.
  intros L w. unfold bind, checked. destruct o as [a|]; [|exact I].
  apply (L a eq_refl).
Qed.

Ltac launched :=
  eapply launching_ext;
  [ repeat first
      [ eapply launching_check_memset
      | eapply launching_check_peek
      | eapply launching_launch
      | eapply launching_ret
      | eapply launching_bind; [ | intros _] ]
  | reflexivity ].

Lemma routine_kernels_routine n E ks (m : M F unit) :
  routine_kernels n E ks m -> routine n E m.
Proof. destruct 1; constructor. Qed.

(** Every routine launches its kernels, each on the grid its first two
    lines compute. *)
Lemma routine_kernels_launching n E ks (m : M F unit) :
  routine_kernels n E ks m ->
  launching (on_grid (num_blocks n E) ks) m.
Proof.
  intros Hr.
  destruct Hr as [ | | | | |T code A absmax out blocksize n| | | | ];
    unfold histogramScatterAdd2D, estimateQuantiles, quantize, dequantize,
      quantizeBlockwise, optimizer32bit, optimizerStatic8bit,
      optimizerStatic8bitBlockwise, percentileClipping,
      optimizer32bit_kernels, optimizerStatic8bit_kernels,
      optimizerStatic8bitBlockwise_kernels;
    cbv zeta;
    repeat match goal with
      | |- context [if ?b then _ else _] => destruct b
      end;
    try (launched; fail).
  unfold dequantizeBlockwise, dequantizeBlockwise_kernels.
  apply launching_checked; intros q Hq. apply launching_checked; intros r Hr.
  apply c_div_Some in Hq. apply c_rem_Some in Hr. subst q r.
  fold (num_blocks n blocksize).
  destruct (blocksize =? 4096); [|destruct (blocksize =? 2048)]; launched.
Qed.

End LaunchedKernels.

Section RunsOfRoutines.
Context {F : Type} `{Float32 F} `{Device F}.

(** One run of a routine: how it ends, what it logs and what it launches. *)
Lemma routine_kernels_run n E ks (m : M F unit) (w : world F) :
  routine_kernels n E ks m -> E <> 0 -> ~ (n = INT_MIN /\ E = -1) ->
  exists w' t,
    (m w = Returned tt w' \/ m w = Exited 1 w') /\
    trace w' = trace w ++ t /\
    Forall (grid_is (num_blocks n E)) t /\
    mem w' = apply_events t (mem w) /\
    (m w = Returned tt w' ->
     launch_shapes t = on_grid (num_blocks n E) ks) /\
    launch_shapes t `prefix_of` on_grid (num_blocks n E) ks /\
    (quiet w -> m w = Returned tt w') /\
    (m w = Exited 1 w' ->
     exists t0 e,
       t = t0 ++ [e] /\ status_of e <> cudaSuccess /\
       In (status_of e) (runtime w)).
Proof.
  intros Hk HE Hov.
  pose proof (routine_kernels_routine n E ks m Hk) as Hr.
  pose proof (routine_segment n E m Hr) as S.
  pose proof (segment_quiet _ m w S) as Hquiet.
  specialize (S w).
  pose proof (routine_total n E m Hr HE Hov w) as T.
  pose proof (routine_kernels_launching n E ks m Hk w) as L.
  destruct (m w) as [[] w'|st w'|]; [| |contradiction].
  - destruct S as (t & Ht & _ & _ & HQ & Hm & _).
    destruct L as (t' & Ht' & Hs').
    assert (t' = t) as -> by (apply (app_inv_head (trace w)); congruence).
    exists w', t. split; [left; reflexivity|]. split; [exact Ht|].
    split; [exact HQ|]. split; [exact Hm|]. split; [intros _; exact Hs'|].
    split; [rewrite Hs'; reflexivity|]. split; [reflexivity|].
    intros [=].
  - destruct S as (-> & t & e & line & Ht & _ & Hne & Hin & _ & HQ & Hm & _).
    destruct L as (t' & Ht' & Hs').
    assert (t' = t ++ [e]) as -> by (apply (app_inv_head (trace w)); congruence).
    exists w', (t ++ [e]). split; [right; reflexivity|]. split; [exact Ht|].
    split; [exact HQ|]. split; [exact Hm|]. split; [intros [=]|].
    split; [exact Hs'|]. split.
    + intros Hq. exfalso. apply (Hquiet Hq 1 w'). reflexivity.
    + intros _. exists t, e. auto.
Qed.

End RunsOfRoutines.

Section Contract.
Context {F : Type} `{Float32 F} `{Device F}.

(** C5.  For every routine of ops.cu, called with an element count [n >= 0]
    and [E] elements per work-group (1024 for quantize/dequantize, 4096 for
    quantizeBlockwise and optimizer32bit, 2048 for percentileClipping, ...),
    [num_blocks n E] is ceil(n/E), and a call that returns has launched
    exactly the kernels [ks] of the routine, in order, each on that many
    work-groups; under a runtime that reports success the call does return.
    A call that a failed runtime call ends has launched the first of them,
    on the same grid.  For [n = 0] that is zero work-groups, no kernel body
    runs, and the memory changes only by the host-side zeroing. *)
Theorem work_groups_are_ceiling n E ks (m : M F unit) (w : world F) :
  routine_kernels n E ks m -> 0 <= n -> 0 < E ->
  is_ceil (num_blocks n E) n E /\
  exists w' t,
    (m w = Returned tt w' \/ m w = Exited 1 w') /\
    trace w' = trace w ++ t /\
    (m w = Returned tt w' ->
     launch_shapes t = on_grid (num_blocks n E) ks) /\
    launch_shapes t `prefix_of` on_grid (num_blocks n E) ks /\
    (quiet w -> m w = Returned tt w') /\
    (forall k grid block args,
        In (EvLaunch k grid block args) t -> is_ceil grid n E) /\
    (n = 0 ->
     (forall k grid block args, In (EvLaunch k grid block args) t -> grid = 0) /\
     mem w' = replay_memsets t (mem w)).
Proof.
  intros Hk Hn HE.
  split; [apply num_blocks_is_ceil; assumption|].
  destruct (routine_kernels_run n E ks m w Hk ltac:(lia) ltac:(lia))
    as (w' & t & Ho & Ht & HQ & Hm & Hret & Hpre & Hq & _).
  exists w', t. split; [exact Ho|]. split; [exact Ht|].
  split; [exact Hret|]. split; [exact Hpre|]. split; [exact Hq|]. split.
  - intros k grid block args Hin. rewrite Forall_forall in HQ.
    apply list_elem_of_In, HQ in Hin. simpl in Hin. subst grid.
    apply num_blocks_is_ceil; assumption.
  - intros ->. rewrite num_blocks_0 in HQ. split.
    + intros k grid block args Hin. rewrite Forall_forall in HQ.
      apply list_elem_of_In, HQ in Hin. exact Hin.
    + rewrite Hm. apply zero_work_is_replay, HQ.
Qed.

(** C7.  [CUDA_CHECK_RETURN] returns when its argument is [cudaSuccess] and
    otherwise prints "Error <description> at line <L> in file <F>" on the
    error stream and ends the process with status 1.  Every routine of
    ops.cu checks every [cudaMemset] and follows every kernel launch
    directly by a checked last-error query: a call either returns (no
    value: the routines are [void]), all runtime calls having succeeded and
    nothing printed, or it ends the process with status 1 right after the
    first failed call [e], having printed exactly the message for [e]'s
    status and a line of ops.cu that holds a check. *)
Theorem fatal_on_runtime_failure :
  (forall line (value : M F Z) w,
      CUDA_CHECK_RETURN line value w =
      match value w with
      | Returned s w1 =>
          if s =? cudaSuccess then Returned tt w1
          else Exited 1
                 {| mem := mem w1; trace := trace w1;
                    stderr := stderr w1 +:+ "Error " +:+ cudaGetErrorString s
                              +:+ " at line " +:+ pretty line +:+ " in file "
                              +:+ FILE +:+ newline;
                    runtime := runtime w1 |}
      | Exited st w1 => Exited st w1
      | Undefined => Undefined
      end) /\
  (forall n E (m : M F unit) (w : world F),
      routine n E m ->
      match m w with
      | Returned _ w' =>
          exists t,
            trace w' = trace w ++ t /\
            Forall (fun e => status_of e = cudaSuccess) t /\
            launches_checked t = true /\
            stderr w' = stderr w
      | Exited st w' =>
          st = 1 /\
          exists t e line,
            trace w' = trace w ++ t ++ [e] /\
            Forall (fun e => status_of e = cudaSuccess) t /\
            status_of e <> cudaSuccess /\
            launches_checked (t ++ [e]) = true /\
            In line check_lines /\
            stderr w' =
              stderr w +:+ "Error " +:+ cudaGetErrorString (status_of e)
              +:+ " at line " +:+ pretty line +:+ " in file " +:+ FILE
              +:+ newline
      | Undefined => E = 0 \/ (n = INT_MIN /\ E = -1)
      end) /\
  (forall n E (m : M F unit) (w : world F),
      routine n E m -> 0 < E -> quiet w -> exists w', m w = Returned tt w').
Proof.
  split; [|split].
  - intros line value w. unfold CUDA_CHECK_RETURN, bind.
    destruct (value w) as [s w1| |]; try reflexivity.
    destruct (s =? cudaSuccess); reflexivity.
  - intros n E m w Hr. pose proof (routine_segment n E m Hr w) as S.
    destruct (m w) as [[] w'|st w'|] eqn:Hm.
    + destruct S as (t & Ht & Hs & Hc & _ & _ & He & _). eauto.
    + destruct S as (-> & t & e & line & Ht & Hs & Hne & _ & Hc & _ & _ & Hl & He).
      split; [reflexivity|]. exists t, e, line. repeat split; assumption.
    + destruct (Z.eq_dec E 0) as [|HE]; [left; assumption|right].
      destruct (Z.eq_dec n INT_MIN) as [Hn|Hn];
        destruct (Z.eq_dec E (-1)) as [HE1|HE1]; try (split; assumption);
        exfalso; apply (routine_total n E m Hr HE) with (w := w);
        try assumption; intros [? ?]; contradiction.
  - intros n E m w Hr HE Hq.
    pose proof (routine_segment n E m Hr) as S.
    pose proof (segment_quiet _ m w S Hq) as Hx.
    pose proof (routine_total n E m Hr ltac:(lia) ltac:(lia) w) as T.
    destruct (m w) as [[] w'|st w'|]; [eauto| |contradiction].
    exfalso. apply (Hx st w'). reflexivity.
Qed.

End Contract.

(** ** Blockwise dequantization: dispatch on the block size *)

Section DequantizeDispatch.
Context {F : Type} `{Float32 F} `{Device F}.

Lemma c_div_defined n d :
  d <> 0 -> ~ (n = INT_MIN /\ d = -1) ->
  c_div n d = Some (Z.quot n d) /\ c_rem n d = Some (Z.rem n d).
Proof.
  intros Hd Hov. unfold c_div, c_rem.
  destruct (Z.eqb_spec d 0); [contradiction|].
  destruct (Z.eqb_spec n INT_MIN), (Z.eqb_spec d (-1)); simpl; auto.
  exfalso. apply Hov. split; assumption.
Qed.


End DequantizeDispatch.

(** ** The 8-bit static optimizer *)

Section OptimizerStatic8bit.
Context {F : Type} `{Float32 F} `{Device F}.

(** C4, as the code has it.  For each of ADAM, MOMENTUM, RMSPROP and
    ADAGRAD, a call to [optimizerStatic8bit] whose runtime calls succeed
    launches exactly two kernels, the precondition kernel and then the
    update kernel, each followed by the last-error query.  Before the
    precondition kernel it zeroes [unorm] when [max_unorm > 0], then
    [new_max1]; [new_max2] is zeroed as well in the ADAM (2-state) path only:
    the 1-state path never writes it. *)
Theorem optimizerStatic8bit_two_passes T OPTIMIZER p g state1 state2 unorm
    max_unorm param_norm beta1 beta2 eps step lr quantiles1 quantiles2
    max1 max2 new_max1 new_max2 weight_decay gnorm_scale n (w : world F) :
  In OPTIMIZER [ADAM; MOMENTUM; RMSPROP; ADAGRAD] ->
  quiet w ->
  exists w' kpre kupd args_pre args_upd,
    optimizerStatic8bit T OPTIMIZER p g state1 state2 unorm max_unorm param_norm
      beta1 beta2 eps step lr quantiles1 quantiles2 max1 max2 new_max1 new_max2
      weight_decay gnorm_scale n w
    = Returned tt w' /\
    precondition_kernel kpre = true /\
    update_kernel kupd = true /\
    trace w' =
      trace w
      ++ (if f_gt max_unorm f_zero
          then [EvMemset unorm 0 (1 * sizeof_float) cudaSuccess] else [])
      ++ [EvMemset new_max1 0 (1 * sizeof_float) cudaSuccess]
      ++ (if OPTIMIZER =? ADAM
          then [EvMemset new_max2 0 (1 * sizeof_float) cudaSuccess] else [])
      ++ [EvLaunch kpre (num_blocks n 4096) 256 args_pre;
          EvPeek cudaSuccess;
          EvLaunch kupd (num_blocks n 4096) 1024 args_upd;
          EvPeek cudaSuccess] /\
    mem w' =
      run_grid kupd (num_blocks n 4096) 1024 args_upd
        (run_grid kpre (num_blocks n 4096) 256 args_pre
           ((if OPTIMIZER =? ADAM then <[new_max2 := Flt f_zero]> else id)
              (<[new_max1 := Flt f_zero]>
                 ((if f_gt max_unorm f_zero then <[unorm := Flt f_zero]> else id)
                    (mem w))))) /\
    stderr w' = stderr w.
Proof.
  intros Hopt Hq. destruct w as [m t e r]. simpl in Hopt.
  unfold quiet in Hq; simpl in Hq. unfold optimizerStatic8bit.
  destruct Hopt as [<-|[<-|[<-|[<-|[]]]]]; simpl (_ =? _); simpl (_ || _);
    cbv iota; destruct (f_gt max_unorm f_zero); quiet_run;
    rewrite ?zero_cells_one;
    first
      [ eexists _, (kPreconditionOptimizerStatic8bit2State T ADAM),
          (kOptimizerStatic8bit2State T ADAM), _, _;
        (split; [reflexivity|]); simpl; rewrite <- ?app_assoc; simpl;
        repeat split; reflexivity
      | eexists _, (kPreconditionOptimizerStatic8bit1State T _),
          (kOptimizerStatic8bit1State T _), _, _;
        (split; [reflexivity|]); simpl; rewrite <- ?app_assoc; simpl;
        repeat split; reflexivity ].
Qed.

(** C8.  The explicit instantiations of [optimizerStatic8bit] are exactly
    the kinds ADAM, MOMENTUM, RMSPROP at the element types half and float;
    no instantiation has the kind ADAGRAD, although the switch of the
    template treats ADAGRAD like the other 1-state kinds (it zeroes
    [new_max1] and launches the two 1-state kernels). *)
Theorem optimizerStatic8bit_instances :
  (forall OPTIMIZER T,
      In (OPTIMIZER, T) optimizerStatic8bit_instantiations <->
      In OPTIMIZER [ADAM; MOMENTUM; RMSPROP]) /\
  List.NoDup optimizerStatic8bit_instantiations /\
  (forall T, ~ In (ADAGRAD, T) optimizerStatic8bit_instantiations) /\
  (forall T p g state1 state2 unorm max_unorm param_norm beta1 beta2 eps step
          lr quantiles1 quantiles2 max1 max2 new_max1 new_max2 weight_decay
          gnorm_scale n m t e,
      exists w' args_pre args_upd,
        optimizerStatic8bit T ADAGRAD p g state1 state2 unorm max_unorm
          param_norm beta1 beta2 eps step lr quantiles1 quantiles2 max1 max2
          new_max1 new_max2 weight_decay gnorm_scale n (World m t e [])
        = Returned tt w' /\
        launches (trace w') =
          launches t ++
          [EvLaunch (kPreconditionOptimizerStatic8bit1State T ADAGRAD)
             (num_blocks n 4096) 256 args_pre;
           EvLaunch (kOptimizerStatic8bit1State T ADAGRAD)
             (num_blocks n 4096) 1024 args_upd]).
Proof.
  split; [|split; [|split]].
  - intros OPTIMIZER T. unfold optimizerStatic8bit_instantiations. simpl.
    split.
    + intros Hin. repeat destruct Hin as [Hin|Hin]; try contradiction;
        inversion Hin; subst; auto 6.
    + intros Hin. destruct T; repeat destruct Hin as [Hin|Hin];
        try contradiction; subst; auto 8.
  - unfold optimizerStatic8bit_instantiations, ADAM, MOMENTUM, RMSPROP.
    repeat (constructor; [simpl; intros Hin;
                          repeat destruct Hin as [Hin|Hin];
                          try contradiction; discriminate|]).
    constructor.
  - intros T Hin.
    unfold optimizerStatic8bit_instantiations, ADAM, MOMENTUM, RMSPROP,
      ADAGRAD in Hin.
    simpl in Hin. repeat destruct Hin as [Hin|Hin]; try contradiction;
      discriminate.
  - intros. unfold optimizerStatic8bit. simpl (_ =? _); simpl (_ || _);
      cbv iota.
    assert (all_success []) as Hq by constructor.
    destruct (f_gt max_unorm f_zero); quiet_run;
      eexists _, _, _; (split; [reflexivity|]); simpl;
      unfold launches; rewrite !List.filter_app; simpl;
      rewrite ?app_nil_r, <- ?app_assoc; reflexivity.
Qed.

(** C9.  For a kind outside ADAM, MOMENTUM, RMSPROP, ADAGRAD the switch of
    [optimizerStatic8bit] takes the empty default branch: no kernel is
    launched.  With [max_unorm > 0] the call has nevertheless zeroed
    [unorm] before the switch, and that is its only effect: every other cell
    of the memory, and so every state and new-max buffer that is not
    [unorm] itself, is as before. *)
Theorem optimizerStatic8bit_default_zeroes_unorm T OPTIMIZER p g state1 state2
    unorm max_unorm param_norm beta1 beta2 eps step lr quantiles1 quantiles2
    max1 max2 new_max1 new_max2 weight_decay gnorm_scale n (w : world F) :
  ~ In OPTIMIZER [ADAM; MOMENTUM; RMSPROP; ADAGRAD] ->
  f_gt max_unorm f_zero = true ->
  quiet w ->
  exists w',
    optimizerStatic8bit T OPTIMIZER p g state1 state2 unorm max_unorm param_norm
      beta1 beta2 eps step lr quantiles1 quantiles2 max1 max2 new_max1 new_max2
      weight_decay gnorm_scale n w
    = Returned tt w' /\
    trace w' = trace w ++ [EvMemset unorm 0 (1 * sizeof_float) cudaSuccess] /\
    launches (trace w') = launches (trace w) /\
    mem w' = <[unorm := Flt f_zero]> (mem w) /\
    mem w' !! unorm = Some (Flt f_zero) /\
    (forall a, a <> unorm -> mem w' !! a = mem w !! a) /\
    stderr w' = stderr w.
Proof.
  intros Hopt Hgt Hq. destruct w as [m t e r].
  unfold quiet in Hq; simpl in Hq. unfold optimizerStatic8bit.
  rewrite Hgt. simpl in Hopt.
  destruct (Z.eqb_spec OPTIMIZER ADAM); [exfalso; apply Hopt; subst; auto 6|].
  destruct (Z.eqb_spec OPTIMIZER MOMENTUM); [exfalso; apply Hopt; subst; auto 6|].
  destruct (Z.eqb_spec OPTIMIZER RMSPROP); [exfalso; apply Hopt; subst; auto 6|].
  destruct (Z.eqb_spec OPTIMIZER ADAGRAD); [exfalso; apply Hopt; subst; auto 6|].
  simpl (_ || _); cbv iota. quiet_run. rewrite zero_cells_one.
  eexists; split; [reflexivity|]. simpl.
  unfold launches; rewrite List.filter_app; simpl; rewrite app_nil_r.
  repeat split; auto.
  - apply lookup_insert_eq.
  - intros a Ha. apply lookup_insert_ne. congruence.
Qed.

End OptimizerStatic8bit.

(** ** Calls with no element *)

Section EmptyInput.
Context {F : Type} `{Float32 F} `{Device F}.

Lemma fold_insert_lookup (v : cell F) p (l : list Z) (h : heap F) a :
  foldl (fun h i => <[p + i := v]> h) h l !! a =
  if bool_decide (a - p ∈ l) then Some v else h !! a.
Proof.
  revert h. induction l as [|i l IH]; intros h.
  - case_bool_decide as Hin; [|reflexivity].
    apply elem_of_nil in Hin. contradiction.
  - cbn [foldl]. rewrite IH.
    case_bool_decide as Hl; case_bool_decide as Hil; try reflexivity.
    + exfalso. apply Hil. right. exact Hl.
    + apply elem_of_cons in Hil as [Hil|Hil]; [|contradiction].
      replace (p + i) with a by lia. apply lookup_insert_eq.
    + apply lookup_insert_ne. intros Heq. apply Hil.
      replace (a - p) with i by lia. left.
Qed.

Lemma zero_cells_lookup p cells (h : heap F) a :
  zero_cells p cells h !! a =
  if bool_decide (p <= a < p + cells) then Some (Flt f_zero) else h !! a.
Proof.
  unfold zero_cells. rewrite fold_insert_lookup.
  case_bool_decide as Hl; rewrite elem_of_seqZ in Hl;
    case_bool_decide as Hr; try reflexivity; lia.
Qed.

(** C10.  A call with [n = 0] computes zero work-groups, so its kernels run
    no work-group, but the host-side zeroing is done all the same (here
    under a quiet runtime):
    - [estimateQuantiles] zeroes the 256 entries of [code] and nothing else;
    - [percentileClipping] zeroes slot [step % 100] of the history and
      nothing else;
    - [optimizerStatic8bit] zeroes [new_max1] (and [new_max2] for ADAM, and
      [unorm] when [max_unorm > 0]) and nothing else. *)
Theorem empty_input_still_zeroes (w : world F) :
  quiet w ->
  (forall T A code offset,
      exists w',
        estimateQuantiles T A code offset 0 w = Returned tt w' /\
        trace w' =
          trace w ++
          [EvMemset code 0 (256 * sizeof_float) cudaSuccess;
           EvLaunch (kEstimateQuantiles T) 0 512
             [APtr A; APtr code; AFloat offset;
              AFloat (numeric_limits_max T); AInt 0];
           EvPeek cudaSuccess] /\
        (forall i, 0 <= i < 256 -> mem w' !! (code + i) = Some (Flt f_zero)) /\
        (forall a, ~ (code <= a < code + 256) -> mem w' !! a = mem w !! a)) /\
  (forall T g gnorm_vec step,
      exists w',
        percentileClipping T g gnorm_vec step 0 w = Returned tt w' /\
        trace w' =
          trace w ++
          [EvMemset (gnorm_vec + Z.rem step 100) 0 (1 * sizeof_float) cudaSuccess;
           EvLaunch (kPercentileClipping T 2048 4) 0 512
             [APtr g; APtr gnorm_vec; AInt step; AInt 0];
           EvPeek cudaSuccess] /\
        mem w' = <[gnorm_vec + Z.rem step 100 := Flt f_zero]> (mem w)) /\
  (forall T OPTIMIZER p g state1 state2 unorm max_unorm param_norm beta1 beta2
          eps step lr quantiles1 quantiles2 max1 max2 new_max1 new_max2
          weight_decay gnorm_scale,
      In OPTIMIZER [ADAM; MOMENTUM; RMSPROP; ADAGRAD] ->
      exists w',
        optimizerStatic8bit T OPTIMIZER p g state1 state2 unorm max_unorm
          param_norm beta1 beta2 eps step lr quantiles1 quantiles2 max1 max2
          new_max1 new_max2 weight_decay gnorm_scale 0 w
        = Returned tt w' /\
        Forall (grid_is 0) (drop (length (trace w)) (trace w')) /\
        mem w' =
          (if OPTIMIZER =? ADAM then <[new_max2 := Flt f_zero]> else id)
            (<[new_max1 := Flt f_zero]>
               ((if f_gt max_unorm f_zero then <[unorm := Flt f_zero]> else id)
                  (mem w))) /\
        mem w' !! new_max1 = Some (Flt f_zero) /\
        (OPTIMIZER = ADAM -> mem w' !! new_max2 = Some (Flt f_zero))).
Proof.
  intros Hq. destruct w as [m t e r]. unfold quiet in Hq; simpl in Hq.
  split; [|split].
  - intros T A code offset. unfold estimateQuantiles.
    rewrite num_blocks_0. quiet_run. rewrite run_grid_0.
    eexists; split; [reflexivity|]. simpl. rewrite <- !app_assoc. simpl.
    split; [reflexivity|]. split.
    + intros i Hi. rewrite zero_cells_lookup.
      rewrite bool_decide_eq_true_2; [reflexivity|].
      change (Z.quot (256 * sizeof_float) sizeof_float) with 256. lia.
    + intros a Ha. rewrite zero_cells_lookup.
      rewrite bool_decide_eq_false_2; [reflexivity|].
      change (Z.quot (256 * sizeof_float) sizeof_float) with 256. lia.
  - intros T g gnorm_vec step. unfold percentileClipping.
    rewrite num_blocks_0. quiet_run. rewrite run_grid_0, zero_cells_one.
    eexists; split; [reflexivity|]. simpl. rewrite <- !app_assoc. simpl.
    split; reflexivity.
  - intros T OPTIMIZER p g state1 state2 unorm max_unorm param_norm beta1 beta2
      eps step lr quantiles1 quantiles2 max1 max2 new_max1 new_max2
      weight_decay gnorm_scale Hopt.
    unfold optimizerStatic8bit. rewrite num_blocks_0. simpl in Hopt.
    destruct Hopt as [<-|[<-|[<-|[<-|[]]]]]; simpl (_ =? _); simpl (_ || _);
      cbv iota; destruct (f_gt max_unorm f_zero); quiet_run;
      rewrite ?run_grid_0, ?zero_cells_one;
      (eexists; split; [reflexivity|]); simpl;
      rewrite <- ?app_assoc; simpl; rewrite drop_app_length;
      (split; [repeat constructor|]);
      (split; [reflexivity|]);
      (split; [|intros Heq; try discriminate Heq; apply lookup_insert_eq]);
      try apply lookup_insert_eq;
      (destruct (decide (new_max2 = new_max1)) as [->|Hne];
       [apply lookup_insert_eq
       |rewrite lookup_insert_ne by assumption; apply lookup_insert_eq]).
Qed.

End EmptyInput.

(** ** Percentile clipping: the circular history *)

Section PercentileClipping.
Context {F : Type} `{Float32 F} `{Device F}.
Variable part : list F -> F.

(** The device runs the kernel described above. *)
Hypothesis kPercentileClipping_spec :
  forall T block args b h,
    kernel_body (kPercentileClipping T 2048 4) block args b h =
    kPercentileClipping_body part 2048 args b h.

Lemma foldl_pointwise {A B} (f f' : A -> B -> A) (l : list B) (a : A) :
  (forall a b, f a b = f' a b) -> foldl f a l = foldl f' a l.
Proof.
  intros E. revert a. induction l as [|b l IH]; intros a; [reflexivity|].
  cbn [foldl]. rewrite E. apply IH.
Qed.

Lemma read_floats_insert_ne (h : heap F) k v p count :
  (forall a, p <= a < p + count -> a <> k) ->
  read_floats (<[k := v]> h) p count = read_floats h p count.
Proof.
  intros Hne. unfold read_floats. apply list_fmap_ext. intros i a Ha.
  apply list_elem_of_lookup_2, elem_of_seqZ in Ha. unfold read_float.
  rewrite lookup_insert_ne; [reflexivity|]. intros ->. apply (Hne a); auto.
Qed.

Lemma read_float_insert_eq (h : heap F) k x :
  read_float (<[k := Flt x]> h) k = x.
Proof. unfold read_float. rewrite lookup_insert_eq. reflexivity. Qed.

(** The work-groups of one launch accumulate into the slot, starting from
    what the slot holds, and touch nothing else. *)
Lemma percentile_grid g gnorm_vec step n (h : heap F) bs acc :
  (forall i, 0 <= i < n -> g + i <> gnorm_vec + Z.rem step 100) ->
  Forall (fun b => 0 <= b) bs ->
  foldl (fun h b =>
           kPercentileClipping_body part 2048
             [APtr g; APtr gnorm_vec; AInt step; AInt n] b h)
        (<[gnorm_vec + Z.rem step 100 := Flt acc]> h) bs
  = <[gnorm_vec + Z.rem step 100 :=
        Flt (foldl (fun acc b =>
                      f_add acc
                        (part (read_floats h (g + b * 2048) (valid_items 2048 n b))))
                   acc bs)]> h.
Proof.
  intros Hsep Hbs. revert acc.
  induction Hbs as [|b bs Hb _ IH]; intros acc; [reflexivity|].
  cbn [foldl]. unfold kPercentileClipping_body at 2.
  rewrite read_float_insert_eq, insert_insert_eq.
  rewrite read_floats_insert_ne.
  - apply IH.
  - intros a Ha. unfold valid_items in Ha.
    replace a with (g + (a - g)) by lia. apply Hsep. lia.
Qed.

(** One call: the slot of the step ends up holding the norm of [g] as this
    call computes it, whatever it held before; no other cell changes. *)
Lemma percentileClipping_call T g gnorm_vec step n m t e r :
  (forall i, 0 <= i < n -> g + i <> gnorm_vec + Z.rem step 100) ->
  all_success r ->
  percentileClipping T g gnorm_vec step n (World m t e r) =
  Returned tt
    (World (clip_heap part g gnorm_vec n step m)
       (t ++ [EvMemset (gnorm_vec + Z.rem step 100) 0 (1 * sizeof_float) cudaSuccess;
              EvLaunch (kPercentileClipping T 2048 4) (num_blocks n 2048) 512
                [APtr g; APtr gnorm_vec; AInt step; AInt n];
              EvPeek cudaSuccess])
       e (tail (tail r))).
Proof.
  intros Hsep Hq. unfold percentileClipping. quiet_run.
  rewrite zero_cells_one, <- !app_assoc. simpl app.
  f_equal. f_equal. unfold run_grid, clip_heap, gnorm_of.
  erewrite foldl_pointwise; [|intros; apply kPercentileClipping_spec].
  rewrite percentile_grid; [reflexivity|assumption|].
  apply Forall_forall. intros b Hb. apply elem_of_seqZ in Hb. lia.
Qed.

Section History.
Variable prepare : Z -> heap F -> heap F.
Variables (T : dtype) (g gnorm_vec n : Z).

(** The gradient buffer lies outside the history. *)
Hypothesis gradient_apart :
  forall i s, 0 <= i < n -> 0 <= s < 100 -> g + i <> gnorm_vec + s.

(** The caller leaves the history alone between calls. *)
Hypothesis prepare_keeps_history :
  forall k h s, 0 <= s < 100 -> prepare k h !! (gnorm_vec + s) = h !! (gnorm_vec + s).

Lemma clipping_history_run steps m t e r :
  Forall (fun j => 0 <= j) steps ->
  all_success r ->
  exists t' r',
    clipping_history prepare T g gnorm_vec n steps (World m t e r) =
    Returned tt
      (World (foldl (fun h j => clip_heap part g gnorm_vec n j (prepare j h)) m steps)
             t' e r').
Proof.
  intros Hsteps. revert m t r.
  induction Hsteps as [|j steps Hj _ IH]; intros m t r Hq.
  - exists t, r. reflexivity.
  - cbn [clipping_history foldl]. unfold bind at 1, caller. simpl.
    unfold bind at 1. rewrite percentileClipping_call; [|  |assumption].
    + apply IH. auto using all_success_tail.
    + intros i Hi. apply gradient_apart; [assumption|].
      apply Z.rem_bound_pos; lia.
Qed.

Lemma later_steps_keep_slot s steps (h : heap F) :
  0 <= s < 100 ->
  Forall (fun j => Z.rem j 100 <> s) steps ->
  foldl (fun h j => clip_heap part g gnorm_vec n j (prepare j h)) h steps
    !! (gnorm_vec + s)
  = h !! (gnorm_vec + s).
Proof.
  intros Hs Hsteps. revert h.
  induction Hsteps as [|j steps Hj _ IH]; intros h; [reflexivity|].
  cbn [foldl]. rewrite IH. unfold clip_heap.
  rewrite lookup_insert_ne by lia. apply prepare_keeps_history, Hs.
Qed.

Lemma window_200 s (h0 : heap F) :
  0 <= s < 100 ->
  foldl (fun h j => clip_heap part g gnorm_vec n j (prepare j h)) h0 (seqZ 0 200)
    !! (gnorm_vec + s)
  = Some (Flt (gnorm_of part
                 (heap_seen part prepare g gnorm_vec n h0 (100 + s)) g n)).
Proof.
  intros Hs.
  replace 200 with ((100 + s) + (100 - s)) by lia.
  rewrite seqZ_app by lia. rewrite foldl_app.
  rewrite (seqZ_cons (0 + (100 + s))) by lia. cbn [foldl].
  rewrite later_steps_keep_slot; [|assumption|].
  - unfold clip_heap at 1, heap_seen.
    replace (Z.rem (0 + (100 + s)) 100) with s.
    + rewrite lookup_insert_eq. reflexivity.
    + rewrite Z.rem_mod_nonneg by lia.
      apply Z.mod_unique_pos with (q := 1); lia.
  - apply Forall_forall. intros j Hj. apply elem_of_seqZ in Hj.
    rewrite Z.rem_mod_nonneg by lia.
    rewrite <- (Z.mod_unique_pos j 100 1 (j - 100)); lia.
Qed.

End History.


End PercentileClipping.

(** ** Blockwise quantization: the round trip *)

Section ExactQuantization.

Lemma absmax_from_bounds (vals : list Q) (acc : Q) :
  let r := foldl (fun acc v => if Qle_bool (Qabs v) acc then acc else Qabs v)
                 acc vals in
  (acc <= r)%Q /\ (forall v, In v vals -> (Qabs v <= r)%Q).
Proof.
  revert acc. induction vals as [|v vals IH]; intros acc; cbn [foldl].
  - split; [apply Qle_refl|]. intros v [].
  - destruct (Qle_bool (Qabs v) acc) eqn:Hc.
    + apply Qle_bool_iff in Hc. destruct (IH acc) as [Ha Hv].
      split; [exact Ha|]. intros v' [<-|Hin]; [|apply Hv, Hin].
      eapply Qle_trans; eassumption.
    + destruct (IH (Qabs v)) as [Ha Hv].
      assert (acc <= Qabs v)%Q as Hlt.
      { apply Qlt_le_weak, Qnot_le_lt. intros Hle.
        apply Qle_bool_iff in Hle. congruence. }
      split; [eapply Qle_trans; eassumption|].
      intros v' [<-|Hin]; [exact Ha|apply Hv, Hin].
Qed.

Lemma absmax_of_bound (vals : list Q) v :
  In v vals -> (Qabs v <= absmax_of vals)%Q.
Proof. intros Hin. apply (absmax_from_bounds vals 0), Hin. Qed.

Lemma absmax_of_nonneg (vals : list Q) : (0 <= absmax_of vals)%Q.
Proof. apply (absmax_from_bounds vals 0). Qed.

(** The scan keeps the index of a nearest entry among those seen so far. *)
Lemma nearest_from_spec (cb pre : list Q) (m v : Q) (best : Z) (bestd : Q) :
  0 <= best < Z.of_nat (length pre) ->
  Qabs (v - m * nth (Z.to_nat best) pre 0%Q) = bestd ->
  (forall c, In c pre -> (bestd <= Qabs (v - m * c))%Q) ->
  let r := nearest_from cb m v (Z.of_nat (length pre)) best bestd in
  0 <= r < Z.of_nat (length (pre ++ cb)) /\
  forall c, In c (pre ++ cb) ->
    (Qabs (v - m * nth (Z.to_nat r) (pre ++ cb) 0%Q) <= Qabs (v - m * c))%Q.
Proof.
  revert pre best bestd.
  induction cb as [|c cb IH]; intros pre best bestd Hb Hd Hmin; cbn [nearest_from].
  - rewrite app_nil_r. split; [assumption|]. intros c Hc. rewrite Hd.
    apply Hmin, Hc.
  - assert (Z.of_nat (length pre) + 1 = Z.of_nat (length (pre ++ [c]))) as Hlen.
    { rewrite length_app. simpl. lia. }
    replace (pre ++ c :: cb) with ((pre ++ [c]) ++ cb)
      by (rewrite <- app_assoc; reflexivity).
    rewrite Hlen.
    destruct (Qle_bool bestd (Qabs (v - m * c))) eqn:Hc.
    + apply Qle_bool_iff in Hc. apply IH.
      * rewrite <- Hlen. lia.
      * rewrite app_nth1 by lia. exact Hd.
      * intros c' Hin. apply in_app_or in Hin as [Hin|[<-|[]]]; auto.
    + assert (Qabs (v - m * c) <= bestd)%Q as Hlt.
      { apply Qlt_le_weak, Qnot_le_lt. intros Hle.
        apply Qle_bool_iff in Hle. congruence. }
      apply IH.
      * rewrite <- Hlen. lia.
      * rewrite Nat2Z.id, app_nth2 by lia. rewrite Nat.sub_diag. reflexivity.
      * intros c' Hin. apply in_app_or in Hin as [Hin|[<-|[]]].
        -- eapply Qle_trans; [exact Hlt|]. apply Hmin, Hin.
        -- apply Qle_refl.
Qed.

Lemma nearest_spec (cb : list Q) (m v : Q) :
  cb <> [] ->
  0 <= nearest cb m v < Z.of_nat (length cb) /\
  forall c, In c cb ->
    (Qabs (v - m * nth (Z.to_nat (nearest cb m v)) cb 0%Q) <= Qabs (v - m * c))%Q.
Proof.
  destruct cb as [|c0 cb]; [congruence|]. intros _. unfold nearest.
  apply (nearest_from_spec cb [c0] m v 0 (Qabs (v - m * c0))).
  - simpl. lia.
  - reflexivity.
  - intros c [<-|[]]. apply Qle_refl.
Qed.

(** With a dense codebook, the nearest scaled entry is within [m/127] of
    any value of magnitude at most [m]. *)
Lemma quantization_error (cb : list Q) (m v : Q) :
  dense cb -> (Qabs v <= m)%Q ->
  (Qabs (v - m * nth (Z.to_nat (nearest cb m v)) cb 0%Q) <= m * (1 # 127))%Q.
Proof.
  intros Hdense Hv.
  assert (cb <> []) as Hne.
  { destruct (Hdense 0%Q) as (c & Hin & _); [split; discriminate|].
    intros ->. destruct Hin. }
  destruct (nearest_spec cb m v Hne) as [_ Hmin].
  assert (0 <= m)%Q as Hm0.
  { eapply Qle_trans; [apply Qabs_nonneg|exact Hv]. }
  apply Qabs_Qle_condition in Hv. destruct Hv as [Hv1 Hv2].
  destruct (Qlt_le_dec 0 m) as [Hpos|Hzero].
  - destruct (Hdense (v / m)%Q) as (c & Hin & Hc).
    { split.
      - apply Qle_shift_div_l; [exact Hpos|]. lra.
      - apply Qle_shift_div_r; [exact Hpos|]. lra. }
    eapply Qle_trans; [apply Hmin, Hin|].
    apply Qabs_Qle_condition in Hc. destruct Hc as [Hc1 Hc2].
    assert (v == m * (v / m))%Q as Hvm.
    { field. intros Hz. rewrite Hz in Hpos. apply (Qlt_irrefl 0), Hpos. }
    apply Qabs_Qle_condition. split.
    + assert (0 <= m * ((v / m - c) + (1 # 127)))%Q as Hx
        by (apply Qmult_le_0_compat; lra).
      lra.
    + assert (0 <= m * ((1 # 127) - (v / m - c)))%Q as Hx
        by (apply Qmult_le_0_compat; lra).
      lra.
  - assert (m == 0)%Q as Hmz by lra.
    destruct (Hdense 0%Q) as (c & Hin & _); [split; discriminate|].
    eapply Qle_trans; [apply Hmin, Hin|].
    apply Qabs_Qle_condition. split.
    + rewrite Hmz in *. lra.
    + rewrite Hmz in *. lra.
Qed.

End ExactQuantization.

Section BlockwiseKernels.

Lemma write_cells_lookup {F} p (l : list (cell F)) (h : heap F) a :
  write_cells p l h !! a =
  if bool_decide (p <= a < p + Z.of_nat (length l))
  then l !! Z.to_nat (a - p) else h !! a.
Proof.
  revert p h. induction l as [|c l IH]; intros p h; cbn [write_cells length].
  - case_bool_decide; [lia|reflexivity].
  - rewrite IH.
    case_bool_decide as H1; case_bool_decide as H2; try lia.
    + replace (Z.to_nat (a - p)) with (S (Z.to_nat (a - (p + 1)))) by lia.
      reflexivity.
    + assert (a = p) as -> by lia. rewrite lookup_insert_eq.
      replace (p - p) with 0 by lia. reflexivity.
    + apply lookup_insert_ne. lia.
Qed.

Lemma read_floats_agree (h h' : heap Q) p count :
  (forall a, p <= a < p + count -> h !! a = h' !! a) ->
  read_floats h p count = read_floats h' p count.
Proof.
  intros Hag. unfold read_floats. apply list_fmap_ext. intros i a Ha.
  apply list_elem_of_lookup_2, elem_of_seqZ in Ha. unfold read_float.
  rewrite Hag by lia. reflexivity.
Qed.

Lemma length_read_floats (h : heap Q) p count :
  length (read_floats h p count) = Z.to_nat count.
Proof. unfold read_floats. rewrite length_fmap. apply length_seqZ. Qed.

Lemma lookup_read_floats (h : heap Q) p count k :
  0 <= k < count ->
  read_floats h p count !! Z.to_nat k = Some (read_float h (p + k)).
Proof.
  intros Hk. unfold read_floats. rewrite list_lookup_fmap.
  rewrite lookup_seqZ_lt by lia. simpl. f_equal. f_equal. lia.
Qed.

Lemma nth_read_floats (h : heap Q) p count k :
  0 <= k < count ->
  nth (Z.to_nat k) (read_floats h p count) 0%Q = read_float h (p + k).
Proof.
  intros Hk. apply nth_lookup_Some with (d := 0%Q).
  apply lookup_read_floats, Hk.
Qed.

Lemma div_block i k BS : 0 < BS -> k * BS <= i < (k + 1) * BS -> i / BS = k.
Proof. intros HBS Hi. symmetry. apply (Z.div_unique i BS k (i - k * BS)); lia. Qed.

Lemma lookup_fmap_read_floats {B} (f : Q -> B) (h : heap Q) p count k :
  0 <= k < count ->
  (f <$> read_floats h p count) !! Z.to_nat k = Some (f (read_float h (p + k))).
Proof.
  intros Hk. rewrite list_lookup_fmap, lookup_read_floats by lia. reflexivity.
Qed.

Lemma lookup_fmap_read_bytes {B} (f : Z -> B) (h : heap Q) p count k :
  0 <= k < count ->
  (f <$> (read_byte h <$> seqZ p count)) !! Z.to_nat k
  = Some (f (read_byte h (p + k))).
Proof.
  intros Hk. rewrite !list_lookup_fmap, lookup_seqZ_lt by lia.
  replace (Z.of_nat (Z.to_nat k)) with k by lia. reflexivity.
Qed.

Lemma quantized_unfold (h : heap Q) code A BS n i :
  quantized h code A BS n i =
  nearest (read_floats h code 256) (block_absmax h A BS n (i / BS))
    (read_float h (A + i)).
Proof. reflexivity. Qed.

Lemma block_values_unfold (h : heap Q) A BS n b :
  block_values h A BS n b = read_floats h (A + b * BS) (valid_items BS n b).
Proof. reflexivity. Qed.

Lemma block_absmax_unfold (h : heap Q) A BS n b :
  block_absmax h A BS n b = absmax_of (block_values h A BS n b).
Proof. reflexivity. Qed.

Lemma length_block_values (h : heap Q) A BS n b :
  length (block_values h A BS n b) = Z.to_nat (valid_items BS n b).
Proof. apply length_read_floats. Qed.

Lemma lookup_fmap_block_values {B} (f : Q -> B) (h : heap Q) A BS n b k :
  0 <= k < valid_items BS n b ->
  (f <$> block_values h A BS n b) !! Z.to_nat k
  = Some (f (read_float h (A + b * BS + k))).
Proof. apply lookup_fmap_read_floats. Qed.

(** What one work-group of the quantization kernel leaves at an address. *)
Lemma quantize_body_lookup code A absmax q rand rand_offset n BS b (h : heap Q) a :
  kQuantizeBlockwise_body BS 0
    [APtr code; APtr A; APtr absmax; APtr q; APtr rand; AInt rand_offset; AInt n]
    b h !! a =
  if bool_decide (q + b * BS <= a < q + b * BS + Z.max 0 (valid_items BS n b))
  then Some (Byt (nearest (read_floats h code 256) (block_absmax h A BS n b)
                    (read_float h (A + b * BS + (a - (q + b * BS))))))
  else if bool_decide (a = absmax + b)
       then Some (Flt (block_absmax h A BS n b))
       else h !! a.
Proof.
  unfold kQuantizeBlockwise_body. change (0 =? 0) with true. cbv iota.
  rewrite <- block_values_unfold.
  rewrite <- block_absmax_unfold.
  rewrite write_cells_lookup, length_fmap, length_block_values.
  replace (Z.of_nat (Z.to_nat (valid_items BS n b)))
    with (Z.max 0 (valid_items BS n b)) by lia.
  case_bool_decide as Hr.
  - rewrite lookup_fmap_block_values by lia. reflexivity.
  - case_bool_decide as He.
    + subst a. apply lookup_insert_eq.
    + apply lookup_insert_ne. congruence.
Qed.

(** What one work-group of the dequantization kernel leaves at an address. *)
Lemma dequantize_body_lookup code q absmax out n BS b (h : heap Q) a :
  kDequantizeBlockwise_body BS
    [APtr code; APtr q; APtr absmax; APtr out; AInt n] b h !! a =
  if bool_decide (out + b * BS <= a < out + b * BS + Z.max 0 (valid_items BS n b))
  then Some (Flt (read_float h
                    (code + read_byte h (q + b * BS + (a - (out + b * BS))))
                  * read_float h (absmax + b))%Q)
  else h !! a.
Proof.
  unfold kDequantizeBlockwise_body.
  rewrite write_cells_lookup, !length_fmap, length_seqZ.
  replace (Z.of_nat (Z.to_nat (valid_items BS n b)))
    with (Z.max 0 (valid_items BS n b)) by lia.
  case_bool_decide as Hr; [|reflexivity].
  rewrite lookup_fmap_read_bytes by lia. reflexivity.
Qed.

Lemma read_float_agree (h h' : heap Q) a :
  h !! a = h' !! a -> read_float h a = read_float h' a.
Proof. unfold read_float. intros ->. reflexivity. Qed.

Lemma read_byte_agree (h h' : heap Q) a :
  h !! a = h' !! a -> read_byte h a = read_byte h' a.
Proof. unfold read_byte. intros ->. reflexivity. Qed.

Lemma block_absmax_agree (h h' : heap Q) A BS n b :
  (forall a, A + b * BS <= a < A + b * BS + valid_items BS n b ->
             h !! a = h' !! a) ->
  block_absmax h A BS n b = block_absmax h' A BS n b.
Proof.
  intros Hag. rewrite !block_absmax_unfold, !block_values_unfold.
  f_equal. apply read_floats_agree, Hag.
Qed.

Lemma valid_items_le BS n b : valid_items BS n b <= BS /\ valid_items BS n b <= n - b * BS.
Proof. unfold valid_items. lia. Qed.

Section QuantizeGrid.
Variables (code A absmax q rand rand_offset n BS : Z) (h0 : heap Q).
Hypothesis BS_pos : 0 < BS.
Hypothesis n_nonneg : 0 <= n.
Hypothesis code_absmax : apart (code, 256) (absmax, num_blocks n BS).
Hypothesis code_q : apart (code, 256) (q, n).
Hypothesis A_absmax : apart (A, n) (absmax, num_blocks n BS).
Hypothesis A_q : apart (A, n) (q, n).
Hypothesis absmax_q : apart (absmax, num_blocks n BS) (q, n).

(** After the first [k] work-groups of the quantization kernel: nothing
    outside the scale buffer and the byte buffer has changed, the scales of
    the first [k] blocks are their largest magnitudes, and their bytes are
    the nearest codebook entries. *)
Lemma quantize_grid (k : nat) :
  Z.of_nat k <= num_blocks n BS ->
  (forall a, ~ (absmax <= a < absmax + num_blocks n BS) ->
             ~ (q <= a < q + n) ->
             foldl (fun h b =>
                      kQuantizeBlockwise_body BS 0
                        [APtr code; APtr A; APtr absmax; APtr q; APtr rand;
                         AInt rand_offset; AInt n] b h)
                   h0 (seqZ 0 (Z.of_nat k)) !! a = h0 !! a) /\
  (forall b, 0 <= b < Z.of_nat k ->
             foldl (fun h b =>
                      kQuantizeBlockwise_body BS 0
                        [APtr code; APtr A; APtr absmax; APtr q; APtr rand;
                         AInt rand_offset; AInt n] b h)
                   h0 (seqZ 0 (Z.of_nat k)) !! (absmax + b)
             = Some (Flt (block_absmax h0 A BS n b))) /\
  (forall i, 0 <= i < n -> i < Z.of_nat k * BS ->
             foldl (fun h b =>
                      kQuantizeBlockwise_body BS 0
                        [APtr code; APtr A; APtr absmax; APtr q; APtr rand;
                         AInt rand_offset; AInt n] b h)
                   h0 (seqZ 0 (Z.of_nat k)) !! (q + i)
             = Some (Byt (quantized h0 code A BS n i))).
Proof.
  pose proof code_absmax as Hca. pose proof code_q as Hcq.
  pose proof A_absmax as HAa. pose proof A_q as HAq.
  pose proof absmax_q as Haq.
  unfold apart in Hca, Hcq, HAa, HAq, Haq.
  cbn [fst snd] in Hca, Hcq, HAa, HAq, Haq.
  pose proof (num_blocks_is_ceil n BS n_nonneg BS_pos) as Hceil.
  unfold is_ceil in Hceil.
  remember (num_blocks n BS) as blocks eqn:Eblocks.
  induction k as [|k IH]; intros Hk.
  - change (Z.of_nat 0) with 0. rewrite seqZ_nil by lia. cbn [foldl].
    split; [auto|]. split; intros; lia.
  - rewrite seqZ_S, foldl_app. cbn [foldl]. rewrite Z.add_0_l.
    specialize (IH ltac:(lia)).
    remember (foldl _ h0 (seqZ 0 (Z.of_nat k))) as h eqn:Eh.
    destruct IH as (Hframe & Hscale & Hbytes).
    assert (0 <= Z.of_nat k * BS) as Hlo by nia.
    assert (Z.of_nat k * BS < n) as Hlon by nia.
    assert (Z.of_nat (S k) * BS = Z.of_nat k * BS + BS) as Hnext by lia.
    rewrite Hnext. clear Hnext Hceil.
    pose proof (valid_items_le BS n (Z.of_nat k)) as [Hv1 Hv2].
    remember (valid_items BS n (Z.of_nat k)) as cnt eqn:Ecnt.
    assert (cnt = Z.min BS (n - Z.of_nat k * BS)) as Hcnt
      by (rewrite Ecnt; reflexivity).
    remember (Z.of_nat k * BS) as lo eqn:Elo.
    assert (block_absmax h A BS n (Z.of_nat k)
            = block_absmax h0 A BS n (Z.of_nat k)) as Habs.
    { apply block_absmax_agree. rewrite <- Elo, <- Ecnt. intros a Ha.
      apply Hframe; lia. }
    assert (read_floats h code 256 = read_floats h0 code 256) as Hcb.
    { apply read_floats_agree. intros a Ha. apply Hframe; lia. }
    split; [|split].
    + intros a Ha1 Ha2. rewrite quantize_body_lookup, <- Elo, <- Ecnt.
      rewrite bool_decide_eq_false_2 by lia.
      rewrite bool_decide_eq_false_2 by lia.
      apply Hframe; assumption.
    + intros b Hb. rewrite quantize_body_lookup, <- Elo, <- Ecnt.
      rewrite bool_decide_eq_false_2 by lia.
      destruct (decide (b = Z.of_nat k)) as [->|Hne].
      * rewrite bool_decide_eq_true_2 by reflexivity. rewrite Habs.
        reflexivity.
      * rewrite bool_decide_eq_false_2 by lia. apply Hscale. lia.
    + intros i Hi Hik. rewrite quantize_body_lookup, <- Elo, <- Ecnt.
      destruct (Z_lt_le_dec i lo) as [Hlt|Hge].
      * rewrite bool_decide_eq_false_2 by lia.
        rewrite bool_decide_eq_false_2 by lia.
        apply Hbytes; assumption.
      * rewrite bool_decide_eq_true_2 by lia.
        rewrite quantized_unfold.
        rewrite (div_block i (Z.of_nat k) BS BS_pos) by lia.
        rewrite Habs, Hcb.
        replace (A + lo + (q + i - (q + lo))) with (A + i) by lia.
        rewrite (read_float_agree h h0 (A + i)) by (apply Hframe; lia).
        reflexivity.
Qed.

End QuantizeGrid.

Section DequantizeGrid.
Variables (code q absmax out n BS : Z) (h1 : heap Q).
Hypothesis BS_pos : 0 < BS.
Hypothesis n_nonneg : 0 <= n.
Hypothesis code_out : apart (code, 256) (out, n).
Hypothesis absmax_out : apart (absmax, num_blocks n BS) (out, n).
Hypothesis q_out : apart (q, n) (out, n).
Hypothesis bytes_in_range :
  forall i, 0 <= i < n -> 0 <= read_byte h1 (q + i) < 256.

(** After the first [k] work-groups of the dequantization kernel: nothing
    outside the output buffer has changed, and the outputs of the first [k]
    blocks are the codebook entries of their bytes times the block's
    scale. *)
Lemma dequantize_grid (k : nat) :
  Z.of_nat k <= num_blocks n BS ->
  (forall a, ~ (out <= a < out + n) ->
             foldl (fun h b =>
                      kDequantizeBlockwise_body BS
                        [APtr code; APtr q; APtr absmax; APtr out; AInt n] b h)
                   h1 (seqZ 0 (Z.of_nat k)) !! a = h1 !! a) /\
  (forall i, 0 <= i < n -> i < Z.of_nat k * BS ->
             foldl (fun h b =>
                      kDequantizeBlockwise_body BS
                        [APtr code; APtr q; APtr absmax; APtr out; AInt n] b h)
                   h1 (seqZ 0 (Z.of_nat k)) !! (out + i) =
             Some (Flt (read_float h1 (code + read_byte h1 (q + i))
                        * read_float h1 (absmax + i / BS))%Q)).
Proof.
  pose proof code_out as Hco. pose proof absmax_out as Hao.
  pose proof q_out as Hqo.
  unfold apart in Hco, Hao, Hqo. cbn [fst snd] in Hco, Hao, Hqo.
  pose proof (num_blocks_is_ceil n BS n_nonneg BS_pos) as Hceil.
  unfold is_ceil in Hceil.
  remember (num_blocks n BS) as blocks eqn:Eblocks.
  induction k as [|k IH]; intros Hk.
  - change (Z.of_nat 0) with 0. rewrite seqZ_nil by lia. cbn [foldl].
    split; [auto|]. intros; lia.
  - rewrite seqZ_S, foldl_app. cbn [foldl]. rewrite Z.add_0_l.
    specialize (IH ltac:(lia)).
    remember (foldl _ h1 (seqZ 0 (Z.of_nat k))) as h eqn:Eh.
    destruct IH as (Hframe & Hout).
    assert (0 <= Z.of_nat k * BS) as Hlo by nia.
    assert (Z.of_nat k * BS < n) as Hlon by nia.
    assert (Z.of_nat (S k) * BS = Z.of_nat k * BS + BS) as Hnext by lia.
    rewrite Hnext. clear Hnext Hceil.
    pose proof (valid_items_le BS n (Z.of_nat k)) as [Hv1 Hv2].
    remember (valid_items BS n (Z.of_nat k)) as cnt eqn:Ecnt.
    assert (cnt = Z.min BS (n - Z.of_nat k * BS)) as Hcnt
      by (rewrite Ecnt; reflexivity).
    remember (Z.of_nat k * BS) as lo eqn:Elo.
    split.
    + intros a Ha. rewrite dequantize_body_lookup, <- Elo, <- Ecnt.
      rewrite bool_decide_eq_false_2 by lia. apply Hframe, Ha.
    + intros i Hi Hik. rewrite dequantize_body_lookup, <- Elo, <- Ecnt.
      destruct (Z_lt_le_dec i lo) as [Hlt|Hge].
      * rewrite bool_decide_eq_false_2 by lia. apply Hout; assumption.
      * rewrite bool_decide_eq_true_2 by lia.
        rewrite (div_block i (Z.of_nat k) BS BS_pos) by lia.
        replace (q + lo + (out + i - (out + lo))) with (q + i) by lia.
        pose proof (bytes_in_range i Hi) as Hbyte.
        rewrite (read_byte_agree h h1 (q + i)) by (apply Hframe; lia).
        rewrite (read_float_agree h h1 (absmax + Z.of_nat k))
          by (apply Hframe; lia).
        rewrite (read_float_agree h h1 (code + read_byte h1 (q + i)))
          by (apply Hframe; lia).
        reflexivity.
Qed.

End DequantizeGrid.

End BlockwiseKernels.

Section RoundTrip.
Context {D : Device Q}.

(** The device runs the two kernels described above: the quantization
    kernel without dithering at block size 4096, the dequantization kernel
    at the block size of its template. *)
Hypothesis kQuantizeBlockwise_spec :
  forall T block args b h,
    kernel_body (kQuantizeBlockwise T 4096 4 0) block args b h =
    kQuantizeBlockwise_body 4096 0 args b h.
Hypothesis kDequantizeBlockwise_spec :
  forall T BLOCK_SIZE THREADS NUM_PER_TH block args b h,
    kernel_body (kDequantizeBlockwise T BLOCK_SIZE THREADS NUM_PER_TH)
      block args b h =
    kDequantizeBlockwise_body BLOCK_SIZE args b h.

Lemma separate_five r1 r2 r3 r4 r5 :
  separate [r1; r2; r3; r4; r5] ->
  apart r1 r2 /\ apart r1 r3 /\ apart r1 r4 /\ apart r1 r5 /\
  apart r2 r3 /\ apart r2 r4 /\ apart r2 r5 /\
  apart r3 r4 /\ apart r3 r5 /\ apart r4 r5.
Proof.
  cbn [separate]. rewrite !Forall_cons. tauto.
Qed.

Lemma In_block_values (h : heap Q) A BS n i :
  0 < BS -> 0 <= i < n ->
  In (read_float h (A + i)) (block_values h A BS n (i / BS)).
Proof.
  intros HBS Hi. apply list_elem_of_In, list_elem_of_lookup.
  exists (Z.to_nat (i - i / BS * BS)).
  pose proof (Z.div_mod i BS ltac:(lia)) as Hdm.
  pose proof (Z.mod_pos_bound i BS HBS) as Hmod.
  rewrite block_values_unfold, lookup_read_floats.
  - f_equal. f_equal. lia.
  - unfold valid_items. nia.
Qed.

Lemma quantizeBlockwise_run T code A absmax q rand rand_offset n m t e r :
  all_success r ->
  quantizeBlockwise T 0 code A absmax q rand rand_offset n (World m t e r) =
  Returned tt
    (World
       (foldl (fun h b =>
                 kQuantizeBlockwise_body 4096 0
                   [APtr code; APtr A; APtr absmax; APtr q; APtr rand;
                    AInt rand_offset; AInt n] b h)
              m (seqZ 0 (num_blocks n 4096)))
       (t ++ [EvLaunch (kQuantizeBlockwise T 4096 4 0) (num_blocks n 4096) 1024
                [APtr code; APtr A; APtr absmax; APtr q; APtr rand;
                 AInt rand_offset; AInt n];
              EvPeek cudaSuccess])
       e (tail r)).
Proof.
  intros Hq. unfold quantizeBlockwise. quiet_run.
  rewrite <- app_assoc. unfold run_grid.
  erewrite foldl_pointwise; [reflexivity|].
  intros; apply kQuantizeBlockwise_spec.
Qed.

Lemma dequantizeBlockwise_run T code q absmax out BS n m t e r :
  BS = 2048 \/ BS = 4096 ->
  all_success r ->
  dequantizeBlockwise T code q absmax out BS n (World m t e r) =
  Returned tt
    (World
       (foldl (fun h b =>
                 kDequantizeBlockwise_body BS
                   [APtr code; APtr q; APtr absmax; APtr out; AInt n] b h)
              m (seqZ 0 (num_blocks n BS)))
       (t ++ [EvLaunch (kDequantizeBlockwise T BS (Z.quot BS 4) 4)
                (num_blocks n BS) (Z.quot BS 4)
                [APtr code; APtr q; APtr absmax; APtr out; AInt n];
              EvPeek cudaSuccess])
       e (tail r)).
Proof.
  intros HBS Hq. unfold dequantizeBlockwise.
  destruct (c_div_defined n BS) as [Hdiv Hrem]; [lia|lia|].
  unfold bind at 1, checked. rewrite Hdiv.
  unfold bind at 1. rewrite Hrem. fold (num_blocks n BS).
  destruct HBS as [-> | ->]; simpl (_ =? _); cbv iota; quiet_run;
    rewrite <- app_assoc; unfold run_grid;
    (erewrite foldl_pointwise; [reflexivity|]);
    intros; apply kDequantizeBlockwise_spec.
Qed.


End RoundTrip.

(** ** Dense codebooks *)

Lemma gaps_ok_cover (c : Q) (rest : list Q) (x : Q) :
  gaps_ok c rest = true ->
  (c - (1 # 127) <= x <= 1)%Q ->
  exists c', In c' (c :: rest) /\ (Qabs (x - c') <= 1 # 127)%Q.
Proof.
  revert c. induction rest as [|c' rest IH]; intros c Hg [Hlo Hhi];
    cbn [gaps_ok] in Hg.
  - apply Qle_bool_iff in Hg. exists c. split; [left; reflexivity|].
    apply Qabs_Qle_condition. split; lra.
  - apply andb_true_iff in Hg as [Hgap Hg]. apply Qle_bool_iff in Hgap.
    destruct (Qlt_le_dec (c + (1 # 127)) x) as [Hfar|Hnear].
    + destruct (IH c' Hg) as (c'' & Hin & Hc''); [split; lra|].
      exists c''. split; [right; exact Hin|exact Hc''].
    + exists c. split; [left; reflexivity|].
      apply Qabs_Qle_condition. split; lra.
Qed.

Lemma covers_dense (cb : list Q) : covers cb = true -> dense cb.
Proof.
  destruct cb as [|c rest]; [discriminate|]. cbn [covers]. intros Hc.
  apply andb_true_iff in Hc as [Hfirst Hg]. apply Qle_bool_iff in Hfirst.
  intros x [Hlo Hhi]. apply (gaps_ok_cover c rest x Hg). split; lra.
Qed.

(** ** The properties at concrete inputs *)

Lemma spec_device_percentile T block args b (h : heap Q) :
  kernel_body (kPercentileClipping T 2048 4) block args b h =
  kPercentileClipping_body sum_squares 2048 args b h.
Proof. reflexivity. Qed.

Lemma spec_device_quantize T block args b (h : heap Q) :
  kernel_body (kQuantizeBlockwise T 4096 4 0) block args b h =
  kQuantizeBlockwise_body 4096 0 args b h.
Proof. reflexivity. Qed.

Lemma spec_device_dequantize T BS TH NPT block args b (h : heap Q) :
  kernel_body (kDequantizeBlockwise T BS TH NPT) block args b h =
  kDequantizeBlockwise_body BS args b h.
Proof. reflexivity. Qed.

Lemma quiet_fresh {F} (h : heap F) : quiet (fresh h).
Proof. constructor. Qed.

Lemma optimizer32bit_two_phases_witness :
  exists w' kpre kmain args_pre args_main,
    optimizer32bit float RMSPROP 0 5000 10000 15000 20000 1%Q 1%Q (9 # 10)%Q
      (999 # 1000)%Q (1 # 100000000)%Q 0%Q 1 (1 # 1000)%Q 1%Q false 5000
      (fresh (∅ : heap Q))
    = Returned tt w' /\
    precondition_kernel kpre = true /\
    update_kernel kmain = true /\
    trace w' =
      trace (fresh (∅ : heap Q))
      ++ (if f_gt 1%Q f_zero
          then [EvMemset 20000 0 (1 * sizeof_float) cudaSuccess;
                EvLaunch kpre (num_blocks 5000 4096) 512 args_pre;
                EvPeek cudaSuccess]
          else [])
      ++ [EvLaunch kmain (num_blocks 5000 4096) 1024 args_main;
          EvPeek cudaSuccess] /\
    mem w' =
      run_grid kmain (num_blocks 5000 4096) 1024 args_main
        (if f_gt 1%Q f_zero
         then run_grid kpre (num_blocks 5000 4096) 512 args_pre
                (<[20000 := Flt f_zero]> (mem (fresh (∅ : heap Q))))
         else mem (fresh (∅ : heap Q))) /\
    stderr w' = stderr (fresh (∅ : heap Q)).
Proof.
  apply optimizer32bit_two_phases.
  - simpl. auto.
  - apply quiet_fresh.
Defined.


Lemma spec_dequantize_run T code q absmax out BS n (m : heap Q) t e :
  BS = 2048 \/ BS = 4096 ->
  dequantizeBlockwise T code q absmax out BS n (World m t e []) =
  Returned tt
    (World
       (foldl (fun h b =>
                 kDequantizeBlockwise_body BS
                   [APtr code; APtr q; APtr absmax; APtr out; AInt n] b h)
              m (seqZ 0 (num_blocks n BS)))
       (t ++ [EvLaunch (kDequantizeBlockwise T BS (Z.quot BS 4) 4)
                (num_blocks n BS) (Z.quot BS 4)
                [APtr code; APtr q; APtr absmax; APtr out; AInt n];
              EvPeek cudaSuccess])
       e []).
Proof.
  intros HBS. unfold dequantizeBlockwise.
  destruct (c_div_defined n BS) as [Hdiv Hrem]; [lia|lia|].
  unfold bind at 1, checked. rewrite Hdiv.
  unfold bind at 1. rewrite Hrem. fold (num_blocks n BS).
  assert (all_success []) as Hq by constructor.
  destruct HBS as [-> | ->]; simpl (_ =? _); cbv iota; quiet_run;
    rewrite <- app_assoc; reflexivity.
Qed.

(** At block size 2048 the round trip fails from element 2048 on.  On 2049
    ones, [quantizeBlockwise] works
    on one block of 4096 and writes the single scale [absmax[0]];
    [dequantizeBlockwise] at block size 2048 scales element 2048 by
    [absmax[1]], which no work-group has written: the element comes back as
    0 instead of 1, an error above [m/127] for the scale [m = absmax[1]]
    (and for [absmax[0] = 1] as well). *)
Lemma round_trip_2048_fails :
  exists w1 w2,
    quantizeBlockwise float 0 0 1000 6000 7000 20000 0 2049 ragged_world
    = Returned tt w1 /\
    dequantizeBlockwise float 0 7000 6000 12000 2048 2049 w1 = Returned tt w2 /\
    read_float (mem ragged_world) (1000 + 2048) = 1%Q /\
    (read_float (mem w2) (6000 + 0) == 1)%Q /\
    (read_float (mem w2) (6000 + 2048 / 2048) == 0)%Q /\
    (read_float (mem w2) (12000 + 2048) == 0)%Q /\
    ~ (Qabs (read_float (mem ragged_world) (1000 + 2048)
             - read_float (mem w2) (12000 + 2048))
       <= read_float (mem w2) (6000 + 2048 / 2048) * (1 # 127))%Q /\
    ~ (Qabs (read_float (mem ragged_world) (1000 + 2048)
             - read_float (mem w2) (12000 + 2048))
       <= read_float (mem w2) (6000 + 0) * (1 # 127))%Q.
Proof.
  eexists _, _. split; [reflexivity|].
  split; [apply spec_dequantize_run; left; reflexivity|].
  cbn [mem].
  split; [vm_compute; reflexivity|].
  split; [vm_compute; reflexivity|].
  split; [vm_compute; reflexivity|].
  split; [vm_compute; reflexivity|].
  split; intros Hle; apply Qle_bool_iff in Hle; vm_compute in Hle;
    discriminate Hle.
Qed.

(** With a codebook that is not dense the bound fails at block size 4096
    as well.  With the codebook that only knows -1, 0 and 1, the element 1/4
    of a block whose largest magnitude is 1 is stored as the entry 0 and
    comes back as 0: an error of 1/4, above 1/127. *)
Lemma round_trip_coarse_codebook_fails :
  exists w1 w2,
    quantizeBlockwise float 0 0 1000 6000 7000 20000 0 2 coarse_world
    = Returned tt w1 /\
    dequantizeBlockwise float 0 7000 6000 12000 4096 2 w1 = Returned tt w2 /\
    (read_float (mem coarse_world) (1000 + 1) == 1 # 4)%Q /\
    (read_float (mem w2) (6000 + 1 / 4096) == 1)%Q /\
    (read_float (mem w2) (12000 + 1) == 0)%Q /\
    ~ (Qabs (read_float (mem coarse_world) (1000 + 1)
             - read_float (mem w2) (12000 + 1))
       <= read_float (mem w2) (6000 + 1 / 4096) * (1 # 127))%Q.
Proof.
  eexists _, _. split; [reflexivity|].
  split; [apply spec_dequantize_run; right; reflexivity|].
  cbn [mem].
  split; [vm_compute; reflexivity|].
  split; [vm_compute; reflexivity|].
  split; [vm_compute; reflexivity|].
  intros Hle; apply Qle_bool_iff in Hle; vm_compute in Hle; discriminate Hle.
Qed.

(** With stochastic rounding the bound fails too, for the dense codebook
    and at block size 4096.  In a block whose largest magnitude is 1, the
    element 0 with the draw 1/2 is rounded as 1/2 and stored as the entry
    127/255: it comes back as 127/255, an error above 1/127. *)
Lemma round_trip_stochastic_fails :
  exists w1 w2,
    quantizeBlockwise float 1 0 1000 6000 7000 20000 0 2 dither_world
    = Returned tt w1 /\
    dequantizeBlockwise float 0 7000 6000 12000 4096 2 w1 = Returned tt w2 /\
    dense (read_floats (mem dither_world) 0 256) /\
    (read_float (mem dither_world) (1000 + 0) == 0)%Q /\
    (read_float (mem dither_world) (20000 + 0 + 0) == 1 # 2)%Q /\
    (read_float (mem w2) (6000 + 0 / 4096) == 1)%Q /\
    (read_float (mem w2) (12000 + 0) == 127 # 255)%Q /\
    ~ (Qabs (read_float (mem dither_world) (1000 + 0)
             - read_float (mem w2) (12000 + 0))
       <= read_float (mem w2) (6000 + 0 / 4096) * (1 # 127))%Q.
Proof.
  eexists _, _. split; [reflexivity|].
  split; [apply spec_dequantize_run; right; reflexivity|].
  cbn [mem].
  split; [apply covers_dense; vm_compute; reflexivity|].
  split; [vm_compute; reflexivity|].
  split; [vm_compute; reflexivity|].
  split; [vm_compute; reflexivity|].
  split; [vm_compute; reflexivity|].
  intros Hle; apply Qle_bool_iff in Hle; vm_compute in Hle; discriminate Hle.
Qed.




Lemma optimizerStatic8bit_two_passes_witness :
  In MOMENTUM [ADAM; MOMENTUM; RMSPROP; ADAGRAD] /\
  quiet maxima_world /\
  exists w',
    optimizerStatic8bit float MOMENTUM 0 5000 10000 15000 20000 0%Q 1%Q
      (9 # 10)%Q (999 # 1000)%Q (1 # 100000000)%Q 1 (1 # 1000)%Q 30000 31000
      98 99 100 101 0%Q 1%Q 5000 maxima_world
    = Returned tt w' /\
    length (launches (trace w')) = 2%nat.
Proof.
  assert (In MOMENTUM [ADAM; MOMENTUM; RMSPROP; ADAGRAD]) as H1
    by (right; left; reflexivity).
  split; [exact H1|]. split; [apply quiet_fresh|].
  destruct (optimizerStatic8bit_two_passes float MOMENTUM 0 5000 10000 15000
              20000 0%Q 1%Q (9 # 10)%Q (999 # 1000)%Q (1 # 100000000)%Q 1
              (1 # 1000)%Q 30000 31000 98 99 100 101 0%Q 1%Q 5000 maxima_world
              H1 (quiet_fresh _))
    as (w' & kpre & kupd & args_pre & args_upd & Hrun & _ & _ & Htrace & _).
  exists w'. split; [exact Hrun|]. rewrite Htrace. reflexivity.
Defined.

(** C4 fails for the 1-state kinds.  A MOMENTUM call zeroes [new_max1]
    (address 100) before the precondition kernel but issues no [cudaMemset]
    on [new_max2] (address 101); with no element to work on, so that no
    kernel body runs, [new_max2] still holds its old value 7 after the
    call. *)
Lemma optimizerStatic8bit_momentum_keeps_new_max2 :
  (exists w',
      optimizerStatic8bit float MOMENTUM 0 5000 10000 15000 20000 0%Q 1%Q
        (9 # 10)%Q (999 # 1000)%Q (1 # 100000000)%Q 1 (1 # 1000)%Q 30000 31000
        98 99 100 101 0%Q 1%Q 5000 maxima_world
      = Returned tt w' /\
      Forall (fun e => match e with
                       | EvMemset devPtr _ _ _ => devPtr = 100
                       | _ => True
                       end) (trace w') /\
      length (launches (trace w')) = 2%nat) /\
  (exists w',
      optimizerStatic8bit float MOMENTUM 0 5000 10000 15000 20000 0%Q 1%Q
        (9 # 10)%Q (999 # 1000)%Q (1 # 100000000)%Q 1 (1 # 1000)%Q 30000 31000
        98 99 100 101 0%Q 1%Q 0 maxima_world
      = Returned tt w' /\
      mem w' !! 100 = Some (Flt 0%Q) /\
      mem w' !! 101 = Some (Flt 7%Q)).
Proof.
  split.
  - eexists. split; [reflexivity|]. split.
    + cbn [trace]. repeat constructor.
    + reflexivity.
  - eexists. split; [reflexivity|]. split; vm_compute; reflexivity.
Qed.

Lemma work_groups_are_ceiling_witness :
  routine_kernels 4097 4096 [(kQuantizeBlockwise float 4096 4 0, 1024)]
    (quantizeBlockwise float 0 0 1000 6000 7000 20000 0 4097) /\
  0 <= 4097 /\ 0 < 4096 /\
  is_ceil 2 4097 4096 /\
  exists w' t,
    (quantizeBlockwise float 0 0 1000 6000 7000 20000 0 4097 sample_world
     = Returned tt w' \/
     quantizeBlockwise float 0 0 1000 6000 7000 20000 0 4097 sample_world
     = Exited 1 w') /\
    trace w' = trace sample_world ++ t /\
    (quantizeBlockwise float 0 0 1000 6000 7000 20000 0 4097 sample_world
     = Returned tt w' ->
     launch_shapes t = [(kQuantizeBlockwise float 4096 4 0, 2, 1024)]) /\
    launch_shapes t `prefix_of` [(kQuantizeBlockwise float 4096 4 0, 2, 1024)] /\
    (quiet sample_world ->
     quantizeBlockwise float 0 0 1000 6000 7000 20000 0 4097 sample_world
     = Returned tt w') /\
    (forall k grid block args,
        In (EvLaunch k grid block args) t -> is_ceil grid 4097 4096) /\
    (4097 = 0 ->
     (forall k grid block args, In (EvLaunch k grid block args) t -> grid = 0) /\
     mem w' = replay_memsets t (mem sample_world)).
Proof.
  assert (routine_kernels 4097 4096 [(kQuantizeBlockwise float 4096 4 0, 1024)]
            (quantizeBlockwise (F := Q) float 0 0 1000 6000 7000 20000 0 4097))
    as Hr by constructor.
  split; [exact Hr|]. split; [lia|]. split; [lia|].
  apply (work_groups_are_ceiling 4097 4096 _ _ sample_world Hr); lia.
Defined.


Lemma fatal_on_runtime_failure_witness :
  (exists w', quantize 0 1000 2000 5 (fresh (∅ : heap Q)) = Returned tt w') /\
  match quantize 0 1000 2000 5 failing_world with
  | Returned _ w' =>
      exists t,
        trace w' = trace failing_world ++ t /\
        Forall (fun e => status_of e = cudaSuccess) t /\
        launches_checked t = true /\
        stderr w' = stderr failing_world
  | Exited st w' =>
      st = 1 /\
      exists t e line,
        trace w' = trace failing_world ++ t ++ [e] /\
        Forall (fun e => status_of e = cudaSuccess) t /\
        status_of e <> cudaSuccess /\
        launches_checked (t ++ [e]) = true /\
        In line check_lines /\
        stderr w' =
          stderr failing_world +:+ "Error " +:+ cudaGetErrorString (status_of e)
          +:+ " at line " +:+ pretty line +:+ " in file " +:+ FILE +:+ newline
  | Undefined => 1024 = 0 \/ (5 = INT_MIN /\ 1024 = -1)
  end /\
  quantize 0 1000 2000 5 failing_world =
  Exited 1
    {| mem := ∅;
       trace := [EvLaunch kQuantize 1 1024 [APtr 0; APtr 1000; APtr 2000; AInt 5];
                 EvPeek 2];
       stderr := "Error out of memory at line 41 in file ops.cu" +:+ newline;
       runtime := [] |}.
Proof.
  assert (routine 5 1024 (quantize (F := Q) 0 1000 2000 5)) as Hr
    by constructor.
  destruct (fatal_on_runtime_failure (F := Q)) as (_ & Hpolicy & Hquiet).
  split; [|split].
  - apply (Hquiet 5 1024 _ _ Hr); [lia|apply quiet_fresh].
  - apply (Hpolicy 5 1024 _ failing_world Hr).
  - reflexivity.
Defined.

Lemma optimizerStatic8bit_default_zeroes_unorm_witness :
  ~ In 7 [ADAM; MOMENTUM; RMSPROP; ADAGRAD] /\
  f_gt 1%Q f_zero = true /\
  quiet maxima_world /\
  exists w',
    optimizerStatic8bit float 7 0 5000 10000 15000 100 1%Q 1%Q
      (9 # 10)%Q (999 # 1000)%Q (1 # 100000000)%Q 1 (1 # 1000)%Q 30000 31000
      98 99 100 101 0%Q 1%Q 5000 maxima_world
    = Returned tt w' /\
    trace w' =
      trace maxima_world ++ [EvMemset 100 0 (1 * sizeof_float) cudaSuccess] /\
    launches (trace w') = launches (trace maxima_world) /\
    mem w' = <[100 := Flt f_zero]> (mem maxima_world) /\
    mem w' !! 100 = Some (Flt f_zero) /\
    (forall a, a <> 100 -> mem w' !! a = mem maxima_world !! a) /\
    stderr w' = stderr maxima_world.
Proof.
  assert (~ In 7 [ADAM; MOMENTUM; RMSPROP; ADAGRAD]) as H1.
  { unfold ADAM, MOMENTUM, RMSPROP, ADAGRAD. simpl. lia. }
  split; [exact H1|]. split; [reflexivity|]. split; [apply quiet_fresh|].
  apply optimizerStatic8bit_default_zeroes_unorm;
    [exact H1|reflexivity|apply quiet_fresh].
Defined.

Lemma empty_input_still_zeroes_witness :
  quiet maxima_world /\
  exists w',
    percentileClipping float 1000 0 150 0 maxima_world = Returned tt w' /\
    trace w' =
      trace maxima_world ++
      [EvMemset (0 + Z.rem 150 100) 0 (1 * sizeof_float) cudaSuccess;
       EvLaunch (kPercentileClipping float 2048 4) 0 512
         [APtr 1000; APtr 0; AInt 150; AInt 0];
       EvPeek cudaSuccess] /\
    mem w' = <[0 + Z.rem 150 100 := Flt f_zero]> (mem maxima_world).
Proof.
  split; [apply quiet_fresh|].
  destruct (empty_input_still_zeroes maxima_world (quiet_fresh _))
    as (_ & Hclip & _).
  apply Hclip.
Defined.


(** * Further properties of the dispatch layer *)

(** ** Block counts over all of [int] *)

Lemma num_blocks_negative n E :
  0 < E -> n < 0 ->
  (- E < n -> num_blocks n E = 1) /\
  (n <= - E -> num_blocks n E <= 0) /\
  (Z.rem n E <> 0 -> is_ceil (num_blocks n E - 1) n E) /\
  (Z.rem n E = 0 -> is_ceil (num_blocks n E) n E).
Proof.
  intros HE Hn. unfold num_blocks, is_ceil.
  assert (Z.quot n E = - ((- n) / E)) as Hq.
  { rewrite <- (Z.opp_involutive n) at 1.
    rewrite Z.quot_opp_l, Z.quot_div_nonneg by lia. reflexivity. }
  assert (Z.rem n E = - ((- n) mod E)) as Hr.
  { rewrite <- (Z.opp_involutive n) at 1.
    rewrite Z.rem_opp_l, Z.rem_mod_nonneg by lia. reflexivity. }
  rewrite Hq, Hr.
  pose proof (Z.div_mod (- n) E ltac:(lia)) as Hdm.
  pose proof (Z.mod_pos_bound (- n) E HE) as Hb.
  remember ((- n) / E) as q. remember ((- n) mod E) as r.
  assert (0 <= q) as Hq0 by nia.
  assert (q = 0 \/ 1 <= q) as Hcase by lia.
  destruct (Z.eqb_spec (- r) 0) as [Hz|Hnz].
  - assert (r = 0) as -> by lia.
    split; [intros; destruct Hcase; [subst q; lia|nia]|].
    split; [intros; lia|]. split; intros; [lia|nia].
  - split; [intros; destruct Hcase; [lia|nia]|].
    split; [intros; destruct Hcase; [subst q; lia|lia]|].
    split; intros; [nia|lia].
Qed.

(** X1.  The block count of an [int] element count never leaves [int]: neither
    the quotient nor [blocks + 1] overflows, for the literal work-group
    sizes and for any block size [dequantizeBlockwise] can divide by. *)
Theorem block_count_stays_in_int n d q r :
  int_range n -> int_range d ->
  c_div n d = Some q -> c_rem n d = Some r ->
  int_range q /\ int_range r /\
  int_range (if r =? 0 then q else q + 1) /\
  (0 < d -> (if r =? 0 then q else q + 1) = num_blocks n d).
Proof.
  unfold int_range, INT_MIN, INT_MAX. intros Hn Hd Hq Hr.
  assert (d <> 0 /\ ~ (n = - 2 ^ 31 /\ d = -1)) as [Hd0 Hov].
  { unfold c_div, INT_MIN in Hq.
    destruct (Z.eqb_spec d 0); [discriminate|].
    destruct (Z.eqb_spec n (- 2 ^ 31)), (Z.eqb_spec d (-1));
      simpl in Hq; try discriminate; split; auto; lia. }
  apply c_div_Some in Hq. apply c_rem_Some in Hr. subst q r.
  pose proof (Z.quot_rem' n d) as Hqr.
  pose proof (Z.rem_bound_abs n d Hd0) as Hrb.
  assert (Z.abs d * Z.abs (Z.quot n d) <= Z.abs n) as Hle.
  { rewrite <- Z.quot_abs by assumption.
    apply Z.mul_quot_le; lia. }
  change (2 ^ 31) with 2147483648 in *.
  split; [|split; [|split]].
  - destruct (Z.eq_dec (Z.abs d) 1) as [H1|H1]; [lia|nia].
  - lia.
  - destruct (Z.eqb_spec (Z.rem n d) 0) as [Hz|Hnz].
    + destruct (Z.eq_dec (Z.abs d) 1) as [H1|H1]; [lia|nia].
    + assert (2 <= Z.abs d) by lia. nia.
  - intros _. reflexivity.
Qed.

(** ** Invariants of the logged runtime calls *)

Section LogInvariants.
Context {F : Type} `{Float32 F} `{Device F}.

Lemma segment_weaken (Q Q' : event F -> Prop) (m : M F unit) :
  (forall e, Q e -> Q' e) -> segment Q m -> segment Q' m.
Proof.
  intros HQ S w. specialize (S w). destruct (m w) as [a w'|st w'|]; [| |exact I].
  - destruct S as (t & Ht & Hs & Hc & HQt & Hrest). exists t.
    repeat split; try tauto. eapply Forall_impl; eassumption.
  - destruct S as (-> & t & e & line & Ht & Hs & Hne & Hin & Hc & HQt & Hrest).
    split; [reflexivity|]. exists t, e, line.
    repeat split; try tauto. eapply Forall_impl; eassumption.
Qed.

Ltac seg_by tac :=
  repeat first
    [ apply segment_launch_check; [simpl; tauto | tac | intros; tac]
    | apply segment_launch_check_then; [simpl; tauto | tac | intros; tac | ]
    | apply segment_check_memset; [simpl; tauto | intros; tac]
    | apply segment_check_peek; [simpl; tauto | intros; tac]
    | apply segment_ret
    | apply segment_bind; [ | intros _]
    | match goal with
      | |- segment _ (if ?b then _ else _) => destruct b
      end ].

Ltac shape := first [exact I | repeat split; reflexivity].

Lemma routine_well_shaped n E (m : M F unit) :
  routine n E m -> segment (well_shaped n) m.
Proof.
  intros Hr.
  destruct Hr as [ | | | | |T code A absmax out blocksize n| | | | ];
    unfold histogramScatterAdd2D, estimateQuantiles, quantize, dequantize,
      quantizeBlockwise, optimizer32bit, optimizerStatic8bit,
      optimizerStatic8bitBlockwise, percentileClipping;
    cbv zeta; try (seg_by shape; fail).
  unfold dequantizeBlockwise.
  apply segment_checked; intros q Hq. apply segment_checked; intros r Hr.
  apply c_div_Some in Hq. apply c_rem_Some in Hr. subst q r.
  destruct (Z.eqb_spec blocksize 4096) as [->|H4];
    [|destruct (Z.eqb_spec blocksize 2048) as [->|H2]];
    seg_by shape.
Qed.

Ltac zeroing :=
  first [exact I | split; [reflexivity | vm_compute; auto 8]].

Lemma host_zeroes_segment ws (m : M F unit) :
  host_zeroes ws m -> segment (zeroes_among ws) m.
Proof.
  intros Hz.
  destruct Hz as [ | | | | |T code A absmax out blocksize n| | | | ];
    unfold histogramScatterAdd2D, estimateQuantiles, quantize, dequantize,
      quantizeBlockwise, optimizer32bit, optimizerStatic8bit,
      optimizerStatic8bitBlockwise, percentileClipping;
    cbv zeta; try (seg_by zeroing; fail).
  unfold dequantizeBlockwise.
  apply segment_checked; intros q Hq. apply segment_checked; intros r Hr.
  destruct (blocksize =? 4096); [|destruct (blocksize =? 2048)];
    seg_by zeroing.
Qed.

Lemma idle_work_is_replay (t : list (event F)) h :
  Forall idle_launch t -> apply_events t h = replay_memsets t h.
Proof.
  unfold apply_events, replay_memsets. intros Hz. revert h.
  induction Hz as [|e t He _ IH]; intros h; [reflexivity|].
  cbn [foldl]. destruct e; simpl in He; try apply IH.
  unfold run_grid. rewrite seqZ_nil by assumption. apply IH.
Qed.

End LogInvariants.


Section WholeLayerFacts.
Context {F : Type} `{Float32 F} `{Device F}.

Lemma segment_defined Q (m : M F unit) (w : world F) :
  segment Q m -> total m ->
  exists w' t,
    (m w = Returned tt w' \/ m w = Exited 1 w') /\
    trace w' = trace w ++ t /\
    Forall Q t /\
    mem w' = apply_events t (mem w).
Proof.
  intros S T. specialize (S w). specialize (T w).
  destruct (m w) as [[] w'|st w'|]; [| |contradiction].
  - destruct S as (t & Ht & _ & _ & HQ & Hm & _). exists w', t. auto.
  - destruct S as (-> & t & e & line & Ht & _ & _ & _ & _ & HQ & Hm & _).
    exists w', (t ++ [e]). auto.
Qed.

(** X3.  Every kernel launch of every routine is configured consistently with
    the template parameters of the kernel it launches, whatever the runtime
    reports: threads per work-group times values per thread is the kernel's
    BLOCK_SIZE, the grid is the block count of [n] for that same BLOCK_SIZE,
    and the THREADS parameter of the dequantization kernel is the launched
    thread count. *)
Theorem launches_match_kernel_templates n E (m : M F unit) (w : world F) :
  routine n E m -> 0 < E ->
  exists w' t,
    (m w = Returned tt w' \/ m w = Exited 1 w') /\
    trace w' = trace w ++ t /\
    Forall (well_shaped n) t.
Proof.
  intros Hr HE.
  destruct (segment_defined (well_shaped n) m w) as (w' & t & Ho & Ht & HQ & _).
  - apply (routine_well_shaped n E), Hr.
  - apply (routine_total n E); [exact Hr|lia|lia].
  - exists w', t. auto.
Qed.

(** X4.  The host code writes device memory only by zeroing accumulators: every
    [cudaMemset] a routine issues has the fill value 0 and covers exactly
    one of the routine's accumulator buffers (the 256-entry code table, one
    history slot, [unorm], [new_max1], [new_max2]); quantize, dequantize,
    their blockwise versions, the histogram and the blockwise 8-bit
    optimizer issue none.  Everything else in memory changes only through
    the launched kernels. *)
Theorem host_only_zeroes_accumulators ws (m : M F unit) (w : world F) :
  host_zeroes ws m ->
  match m w with
  | Returned _ w' | Exited _ w' =>
      exists t,
        trace w' = trace w ++ t /\
        Forall (zeroes_among ws) t /\
        (ws = [] ->
         Forall (fun e => match e with
                          | EvMemset _ _ _ _ => False
                          | _ => True
                          end) t) /\
        mem w' = apply_events t (mem w)
  | Undefined => True
  end.
Proof.
  intros Hz. pose proof (host_zeroes_segment ws m Hz w) as S.
  assert (forall t : list (event F),
             Forall (zeroes_among ws) t -> ws = [] ->
             Forall (fun e => match e with
                              | EvMemset _ _ _ _ => False
                              | _ => True
                              end) t) as Hnone.
  { intros t HQ ->. eapply Forall_impl; [exact HQ|].
    intros [p v c s| |]; simpl; tauto. }
  destruct (m w) as [a w'|st w'|]; [| |exact I].
  - destruct S as (t & Ht & _ & _ & HQ & Hm & _). exists t. auto.
  - destruct S as (_ & t & e & line & Ht & _ & _ & _ & _ & HQ & Hm & _).
    exists (t ++ [e]). auto.
Qed.

(** X2.  A negative element count is not rejected: the call goes through
    its runtime calls as for any other count, returns under a runtime that
    reports success, having launched all its kernels, and ends the process
    only after a runtime call that failed.  C division truncates toward
    zero, so for [-E < n < 0] every launch has exactly one work-group (one
    more than the ceiling of [n/E]); for [n <= -E] the grid is not positive,
    no work-group runs, and the memory changes only by the host-side
    zeroing. *)
Theorem negative_count_work_groups n E ks (m : M F unit) (w : world F) :
  routine_kernels n E ks m -> 0 < E -> n < 0 ->
  exists w' t,
    (m w = Returned tt w' \/ m w = Exited 1 w') /\
    trace w' = trace w ++ t /\
    (quiet w -> m w = Returned tt w') /\
    (m w = Exited 1 w' ->
     exists t0 e,
       t = t0 ++ [e] /\ status_of e <> cudaSuccess /\
       In (status_of e) (runtime w)) /\
    (m w = Returned tt w' ->
     launch_shapes t = on_grid (num_blocks n E) ks) /\
    launch_shapes t `prefix_of` on_grid (num_blocks n E) ks /\
    (- E < n -> num_blocks n E = 1 /\ Forall (grid_is 1) t) /\
    (n <= - E ->
     num_blocks n E <= 0 /\ Forall idle_launch t /\
     mem w' = replay_memsets t (mem w)).
Proof.
  intros Hk HE Hn.
  destruct (routine_kernels_run n E ks m w Hk ltac:(lia) ltac:(lia))
    as (w' & t & Ho & Ht & HQ & Hm & Hret & Hpre & Hq & Hex).
  destruct (num_blocks_negative n E HE Hn) as (Hone & Hidle & _).
  exists w', t. split; [exact Ho|]. split; [exact Ht|].
  split; [exact Hq|]. split; [exact Hex|]. split; [exact Hret|].
  split; [exact Hpre|]. split.
  - intros Hlt. split; [exact (Hone Hlt)|].
    rewrite (Hone Hlt) in HQ. exact HQ.
  - intros Hle. specialize (Hidle Hle). split; [exact Hidle|].
    assert (Forall idle_launch t) as Hi.
    { eapply Forall_impl; [exact HQ|].
      intros [| k grid block args |]; simpl; intros; lia. }
    split; [exact Hi|]. rewrite Hm. apply idle_work_is_replay, Hi.
Qed.

Lemma call_sequence_segment (calls : list (M F unit)) :
  Forall (fun m => exists n E, routine n E m) calls ->
  segment (fun _ => True) (call_sequence calls).
Proof.
  induction 1 as [|m calls (n & E & Hr) _ IH]; cbn [call_sequence].
  - apply segment_ret.
  - apply segment_bind; [|intros _; exact IH].
    apply (segment_weaken (grid_is (num_blocks n E))); [auto|].
    apply routine_segment, Hr.
Qed.

Lemma call_sequence_total (calls : list (M F unit)) :
  Forall (fun m => exists n E, routine n E m /\ 0 < E) calls ->
  total (call_sequence calls).
Proof.
  induction 1 as [|m calls (n & E & Hr & HE) _ IH]; cbn [call_sequence].
  - apply total_ret.
  - apply total_bind; [|intros _; exact IH].
    apply (routine_total n E); [exact Hr|lia|lia].
Qed.

(** X5.  The fatal-error contract composes.  Any sequence of routine calls,
    made one after the other, either returns with every logged runtime call
    successful, every launch directly followed by the last-error query and
    nothing printed, or ends the process with status 1 at the first failed
    call, which is then the last call logged (no later routine is entered),
    with exactly one message printed.  Under a quiet runtime the sequence
    returns and leaves the runtime quiet. *)
Theorem call_sequence_contract (calls : list (M F unit)) (w : world F) :
  Forall (fun m => exists n E, routine n E m /\ 0 < E) calls ->
  match call_sequence calls w with
  | Returned _ w' =>
      exists t,
        trace w' = trace w ++ t /\
        Forall (fun e => status_of e = cudaSuccess) t /\
        launches_checked t = true /\
        stderr w' = stderr w
  | Exited st w' =>
      st = 1 /\
      exists t e line,
        trace w' = trace w ++ t ++ [e] /\
        Forall (fun e => status_of e = cudaSuccess) t /\
        status_of e <> cudaSuccess /\
        launches_checked (t ++ [e]) = true /\
        In line check_lines /\
        stderr w' = stderr w +:+ error_message (status_of e) line
  | Undefined => False
  end /\
  (quiet w ->
   exists w', call_sequence calls w = Returned tt w' /\ quiet w').
Proof.
  intros Hcalls.
  assert (segment (fun _ => True) (call_sequence calls)) as S.
  { apply call_sequence_segment. eapply Forall_impl; [exact Hcalls|].
    intros m (n & E & Hr & _). eauto. }
  pose proof (call_sequence_total calls Hcalls w) as T.
  pose proof (S w) as Sw. split.
  - destruct (call_sequence calls w) as [[] w'|st w'|]; [| |contradiction].
    + destruct Sw as (t & Ht & Hs & Hc & _ & _ & He & _). eauto.
    + destruct Sw as (-> & t & e & line & Ht & Hs & Hne & _ & Hc & _ & _ & Hl & He).
      split; [reflexivity|]. exists t, e, line. auto 10.
  - intros Hq. pose proof (segment_quiet _ _ w S Hq) as Hx.
    destruct (call_sequence calls w) as [[] w'|st w'|]; [| |contradiction].
    + destruct Sw as (t & _ & _ & _ & _ & _ & _ & Hr).
      exists w'. split; [reflexivity|].
      unfold quiet, all_success in *. rewrite Forall_forall in *.
      intros s Hs. apply Hq, list_elem_of_In, Hr, list_elem_of_In, Hs.
    + exfalso. apply (Hx st w'). reflexivity.
Qed.

(** X6.  A kind outside ADAM, MOMENTUM, RMSPROP, ADAGRAD makes [optimizer32bit]
    and [optimizerStatic8bitBlockwise] complete no-ops: their switch has no
    default work, so they return at once without any runtime call, not even
    the last-error query, and leave the world (memory, log, error stream,
    pending statuses) exactly as it was, whatever the runtime would have
    reported. *)
Theorem unknown_kind_is_complete_noop T OPTIMIZER g p state1 state2 unorm
    max_unorm param_norm beta1 beta2 eps weight_decay step lr gnorm_scale
    skip_zeros quantiles1 quantiles2 absmax1 absmax2 n (w : world F) :
  ~ In OPTIMIZER [ADAM; MOMENTUM; RMSPROP; ADAGRAD] ->
  optimizer32bit T OPTIMIZER g p state1 state2 unorm max_unorm param_norm
    beta1 beta2 eps weight_decay step lr gnorm_scale skip_zeros n w
  = Returned tt w /\
  optimizerStatic8bitBlockwise T OPTIMIZER p g state1 state2 beta1 beta2 eps
    step lr quantiles1 quantiles2 absmax1 absmax2 weight_decay gnorm_scale
    skip_zeros n w
  = Returned tt w.
Proof.
  intros Hopt. simpl in Hopt.
  unfold optimizer32bit, optimizerStatic8bitBlockwise.
  destruct (Z.eqb_spec OPTIMIZER ADAM); [exfalso; apply Hopt; subst; auto 6|].
  destruct (Z.eqb_spec OPTIMIZER MOMENTUM); [exfalso; apply Hopt; subst; auto 6|].
  destruct (Z.eqb_spec OPTIMIZER RMSPROP); [exfalso; apply Hopt; subst; auto 6|].
  destruct (Z.eqb_spec OPTIMIZER ADAGRAD); [exfalso; apply Hopt; subst; auto 6|].
  split; reflexivity.
Qed.

(** X7.  [percentileClipping] addresses the history by C's [step % 100], and its
    first runtime call, in every case, is the zeroing of that one cell.  For
    [step >= 0] the cell is slot [step mod 100] of the 100-entry history.
    For a negative step that is not a multiple of 100 the remainder is
    negative and the cell lies below the history, at most 99 cells before
    its start. *)
Theorem percentileClipping_slot_address T g gnorm_vec step n (w : world F) :
  (exists s w' rest,
      (percentileClipping T g gnorm_vec step n w = Returned tt w' \/
       percentileClipping T g gnorm_vec step n w = Exited 1 w') /\
      trace w' =
        trace w ++
        EvMemset (gnorm_vec + Z.rem step 100) 0 (1 * sizeof_float) s :: rest) /\
  (0 <= step ->
   Z.rem step 100 = step mod 100 /\
   gnorm_vec <= gnorm_vec + Z.rem step 100 < gnorm_vec + 100) /\
  (step < 0 -> Z.rem step 100 <> 0 ->
   gnorm_vec - 100 < gnorm_vec + Z.rem step 100 < gnorm_vec /\
   Z.rem step 100 = step mod 100 - 100).
Proof.
  split; [|split].
  - destruct w as [m t e r]. unfold percentileClipping.
    unfold bind, CUDA_CHECK_RETURN, bind, cudaMemset, launch,
      cudaPeekAtLastError, fprintf_stderr, exit, ret, next_status.
    cbn [runtime mem trace stderr]. simpl (0 =? 0). cbv iota.
    destruct r as [|s1 r]; cbn [negb].
    + simpl. eexists _, _, _. split; [left; reflexivity|].
      cbn [trace]. rewrite <- !app_assoc. reflexivity.
    + destruct (Z.eqb_spec s1 cudaSuccess) as [->|H1]; cbn [negb].
      * simpl (cudaSuccess =? cudaSuccess). cbv iota. cbn [runtime].
        destruct r as [|s2 r].
        -- simpl. eexists _, _, _. split; [left; reflexivity|].
           cbn [trace]. rewrite <- !app_assoc. reflexivity.
        -- destruct (Z.eqb_spec s2 cudaSuccess) as [->|H2]; cbn [negb];
             eexists _, _, _; (split; [first [left; reflexivity
                                              |right; reflexivity]|]);
             cbn [trace]; rewrite <- !app_assoc; reflexivity.
      * eexists _, _, _. split; [right; reflexivity|].
        cbn [trace]. reflexivity.
  - intros Hs. rewrite Z.rem_mod_nonneg by lia.
    pose proof (Z.mod_pos_bound step 100 ltac:(lia)). lia.
  - intros Hs Hnz.
    pose proof (Z.rem_bound_abs step 100 ltac:(lia)) as Hb.
    pose proof (Z.quot_rem' step 100) as Hqr.
    assert (Z.rem step 100 <= 0) as Hneg
      by (apply Z.rem_nonpos; lia).
    split; [lia|].
    symmetry. apply Z.sub_move_r. symmetry.
    apply (Z.mod_unique_pos step 100 (Z.quot step 100 - 1)); lia.
Qed.

End WholeLayerFacts.


Section Accumulators.
Context {F : Type} `{Float32 F} `{Device F}.

Lemma zero_cells_agree p cells (h1 h2 : heap F) :
  (forall a, ~ (p <= a < p + cells) -> h1 !! a = h2 !! a) ->
  zero_cells p cells h1 = zero_cells p cells h2.
Proof.
  intros Hag. apply map_eq. intros a. rewrite !zero_cells_lookup.
  case_bool_decide as Hr; [reflexivity|]. apply Hag, Hr.
Qed.

Lemma insert_agree p (v : cell F) (h1 h2 : heap F) (P : Z -> Prop) :
  (forall a, a <> p -> ~ P a -> h1 !! a = h2 !! a) ->
  forall a, ~ P a -> <[p := v]> h1 !! a = <[p := v]> h2 !! a.
Proof.
  intros Hag a Ha. destruct (decide (a = p)) as [->|Hne].
  - rewrite !lookup_insert_eq. reflexivity.
  - rewrite !lookup_insert_ne by congruence. apply Hag; assumption.
Qed.

(** X8.  The code table and the history slot are outputs only.  Whatever the
    kernels do, the memory that [estimateQuantiles] leaves does not depend
    on what the 256 entries of [code] held before the call, and the memory
    that [percentileClipping] leaves does not depend on what slot
    [step % 100] held: two runs from memories that differ only there end
    in the same memory. *)
Theorem stale_outputs_do_not_matter T A code offset g gnorm_vec step n
    (w1 w2 : world F) :
  quiet w1 -> quiet w2 ->
  ((forall a, ~ (code <= a < code + 256) -> mem w1 !! a = mem w2 !! a) ->
   exists w1' w2',
     estimateQuantiles T A code offset n w1 = Returned tt w1' /\
     estimateQuantiles T A code offset n w2 = Returned tt w2' /\
     mem w1' = mem w2') /\
  ((forall a, a <> gnorm_vec + Z.rem step 100 -> mem w1 !! a = mem w2 !! a) ->
   exists w1' w2',
     percentileClipping T g gnorm_vec step n w1 = Returned tt w1' /\
     percentileClipping T g gnorm_vec step n w2 = Returned tt w2' /\
     mem w1' = mem w2').
Proof.
  intros Hq1 Hq2. destruct w1 as [m1 t1 e1 r1], w2 as [m2 t2 e2 r2].
  unfold quiet in Hq1, Hq2. cbn [runtime mem] in *. split.
  - intros Hag. unfold estimateQuantiles. quiet_run.
    eexists _, _. split; [reflexivity|]. split; [reflexivity|].
    cbn [mem]. f_equal. apply zero_cells_agree.
    change (Z.quot (256 * sizeof_float) sizeof_float) with 256. exact Hag.
  - intros Hag. unfold percentileClipping. quiet_run.
    eexists _, _. split; [reflexivity|]. split; [reflexivity|].
    cbn [mem]. f_equal. apply zero_cells_agree.
    change (Z.quot (1 * sizeof_float) sizeof_float) with 1.
    intros a Ha. apply Hag. lia.
Qed.

(** X9.  The accumulators of the optimizers are reset by every call.  Whatever
    the kernels do, the memory [optimizer32bit] leaves when [max_unorm > 0]
    does not depend on the old value of [unorm], and the memory
    [optimizerStatic8bit] leaves does not depend on the old value of
    [new_max1], nor of [new_max2] for ADAM, nor of [unorm] when
    [max_unorm > 0]. *)
Theorem stale_accumulators_do_not_matter T OPTIMIZER g p state1 state2 unorm
    max_unorm param_norm beta1 beta2 eps weight_decay step lr gnorm_scale
    skip_zeros quantiles1 quantiles2 max1 max2 new_max1 new_max2 n
    (w1 w2 : world F) :
  In OPTIMIZER [ADAM; MOMENTUM; RMSPROP; ADAGRAD] ->
  quiet w1 -> quiet w2 ->
  (f_gt max_unorm f_zero = true ->
   (forall a, a <> unorm -> mem w1 !! a = mem w2 !! a) ->
   exists w1' w2',
     optimizer32bit T OPTIMIZER g p state1 state2 unorm max_unorm param_norm
       beta1 beta2 eps weight_decay step lr gnorm_scale skip_zeros n w1
     = Returned tt w1' /\
     optimizer32bit T OPTIMIZER g p state1 state2 unorm max_unorm param_norm
       beta1 beta2 eps weight_decay step lr gnorm_scale skip_zeros n w2
     = Returned tt w2' /\
     mem w1' = mem w2') /\
  ((forall a,
       a <> new_max1 ->
       ~ (OPTIMIZER = ADAM /\ a = new_max2) ->
       ~ (f_gt max_unorm f_zero = true /\ a = unorm) ->
       mem w1 !! a = mem w2 !! a) ->
   exists w1' w2',
     optimizerStatic8bit T OPTIMIZER p g state1 state2 unorm max_unorm
       param_norm beta1 beta2 eps step lr quantiles1 quantiles2 max1 max2
       new_max1 new_max2 weight_decay gnorm_scale n w1
     = Returned tt w1' /\
     optimizerStatic8bit T OPTIMIZER p g state1 state2 unorm max_unorm
       param_norm beta1 beta2 eps step lr quantiles1 quantiles2 max1 max2
       new_max1 new_max2 weight_decay gnorm_scale n w2
     = Returned tt w2' /\
     mem w1' = mem w2').
Proof.
  intros Hopt Hq1 Hq2. destruct w1 as [m1 t1 e1 r1], w2 as [m2 t2 e2 r2].
  unfold quiet in Hq1, Hq2. cbn [runtime mem] in *. simpl in Hopt. split.
  - intros Hgt Hag. unfold optimizer32bit. rewrite Hgt.
    assert (<[unorm := Flt f_zero]> m1 = <[unorm := Flt f_zero]> m2) as Heq.
    { apply map_eq. intros a.
      apply (insert_agree unorm _ m1 m2 (fun _ => False)); [|tauto].
      intros a' Ha' _. apply Hag, Ha'. }
    destruct Hopt as [<-|[<-|[<-|[<-|[]]]]]; simpl (_ =? _); simpl (_ || _);
      cbv iota; quiet_run; rewrite !zero_cells_one, Heq;
      eexists _, _; (split; [reflexivity|]); (split; reflexivity).
  - intros Hag. unfold optimizerStatic8bit.
    destruct (f_gt max_unorm f_zero) eqn:Hgt.
    + destruct Hopt as [<-|[<-|[<-|[<-|[]]]]]; simpl (_ =? _); simpl (_ || _);
        cbv iota; quiet_run; rewrite !zero_cells_one;
        eexists _, _; (split; [reflexivity|]); (split; [reflexivity|]);
        cbn [mem]; f_equal; f_equal; apply map_eq; intros a;
        rewrite !lookup_insert; repeat case_decide; try reflexivity;
        apply Hag; intuition (try discriminate; congruence).
    + destruct Hopt as [<-|[<-|[<-|[<-|[]]]]]; simpl (_ =? _); simpl (_ || _);
        cbv iota; quiet_run; rewrite !zero_cells_one;
        eexists _, _; (split; [reflexivity|]); (split; [reflexivity|]);
        cbn [mem]; f_equal; f_equal; apply map_eq; intros a;
        rewrite !lookup_insert; repeat case_decide; try reflexivity;
        apply Hag; intuition (try discriminate; congruence).
Qed.

(** X10.  The two blockwise routines do not partition alike.  [quantizeBlockwise]
    always launches one work-group per 4096 elements; [dequantizeBlockwise]
    at block size 2048 launches one per 2048.  For a buffer of [n >= 0]
    elements the second grid is at least the first and at most twice it,
    and the two differ exactly when [n > 2048]. *)
Theorem blockwise_partitions_differ T STOCHASTIC code A absmax q out rand
    rand_offset n (w : world F) :
  0 <= n -> quiet w ->
  exists w1 w2,
    quantizeBlockwise T STOCHASTIC code A absmax q rand rand_offset n w
    = Returned tt w1 /\
    dequantizeBlockwise T code q absmax out 2048 n w1 = Returned tt w2 /\
    launches (trace w2) =
      launches (trace w) ++
      [EvLaunch (kQuantizeBlockwise T 4096 4 STOCHASTIC) (num_blocks n 4096) 1024
         [APtr code; APtr A; APtr absmax; APtr q; APtr rand; AInt rand_offset;
          AInt n];
       EvLaunch (kDequantizeBlockwise T 2048 512 4) (num_blocks n 2048) 512
         [APtr code; APtr q; APtr absmax; APtr out; AInt n]] /\
    num_blocks n 4096 <= num_blocks n 2048 <= 2 * num_blocks n 4096 /\
    (num_blocks n 4096 < num_blocks n 2048 <-> 2048 < n).
Proof.
  intros Hn Hq. destruct w as [m t e r]. unfold quiet in Hq. cbn [runtime] in Hq.
  unfold quantizeBlockwise. quiet_run.
  eexists _, _. split; [reflexivity|].
  unfold dequantizeBlockwise.
  destruct (c_div_defined n 2048) as [Hdiv Hrem]; [lia|lia|].
  unfold bind at 1, checked. rewrite Hdiv.
  unfold bind at 1. rewrite Hrem. fold (num_blocks n 2048).
  change (2048 =? 4096) with false. change (2048 =? 2048) with true.
  cbv iota. quiet_run. split; [reflexivity|]. cbn [trace].
  split.
  - unfold launches. rewrite !List.filter_app. simpl.
    rewrite !app_nil_r, <- app_assoc. reflexivity.
  - pose proof (num_blocks_is_ceil n 4096 Hn ltac:(lia)) as H4.
    pose proof (num_blocks_is_ceil n 2048 Hn ltac:(lia)) as H2.
    unfold is_ceil in H4, H2. lia.
Qed.

End Accumulators.

Ltac kinds :=
  apply Forall_forall; intros ? Hx;
  repeat (apply elem_of_cons in Hx as [->|Hx]; [simpl; auto 6|]);
  inversion Hx.

Section InstantiatedOptimizers.
Context {F : Type} `{Float32 F} `{Device F}.

(** X11.  Every explicit instantiation of the three optimizers has a kind
    its switch handles, so that no exported optimizer is the silent no-op
    of an unknown kind: under a runtime that reports success the call
    returns having launched, last, the update kernel of that kind and
    element type on the block count of [n] (after the precondition kernel
    for the static 8-bit optimizer; the single fused kernel for the
    blockwise one). *)
Theorem instantiated_optimizers_dispatch T OPTIMIZER g p state1 state2 unorm
    max_unorm param_norm beta1 beta2 eps weight_decay step lr gnorm_scale
    skip_zeros quantiles1 quantiles2 max1 max2 new_max1 new_max2 absmax1
    absmax2 n (w : world F) :
  quiet w ->
  (In (OPTIMIZER, T) optimizer32bit_instantiations ->
   exists w' t pre,
     optimizer32bit T OPTIMIZER g p state1 state2 unorm max_unorm param_norm
       beta1 beta2 eps weight_decay step lr gnorm_scale skip_zeros n w
     = Returned tt w' /\
     trace w' = trace w ++ t /\
     launch_shapes t =
       pre ++ [(if OPTIMIZER =? ADAM then kOptimizer32bit2State T OPTIMIZER
                else kOptimizer32bit1State T OPTIMIZER,
                num_blocks n 4096, 1024)]) /\
  (In (OPTIMIZER, T) optimizerStatic8bit_instantiations ->
   exists w' t,
     optimizerStatic8bit T OPTIMIZER p g state1 state2 unorm max_unorm
       param_norm beta1 beta2 eps step lr quantiles1 quantiles2 max1 max2
       new_max1 new_max2 weight_decay gnorm_scale n w
     = Returned tt w' /\
     trace w' = trace w ++ t /\
     launch_shapes t =
       [(if OPTIMIZER =? ADAM
         then kPreconditionOptimizerStatic8bit2State T OPTIMIZER
         else kPreconditionOptimizerStatic8bit1State T OPTIMIZER,
         num_blocks n 4096, 256);
        (if OPTIMIZER =? ADAM then kOptimizerStatic8bit2State T OPTIMIZER
         else kOptimizerStatic8bit1State T OPTIMIZER,
         num_blocks n 4096, 1024)]) /\
  (In (OPTIMIZER, T) optimizerStatic8bitBlockwise_instantiations ->
   exists w' t,
     optimizerStatic8bitBlockwise T OPTIMIZER p g state1 state2 beta1 beta2
       eps step lr quantiles1 quantiles2 absmax1 absmax2 weight_decay
       gnorm_scale skip_zeros n w
     = Returned tt w' /\
     trace w' = trace w ++ t /\
     launch_shapes t =
       [(if OPTIMIZER =? ADAM
         then kOptimizerStatic8bit2StateBlockwise T OPTIMIZER 2048 8
         else kOptimizerStatic8bit1StateBlockwise T OPTIMIZER 2048 8,
         num_blocks n 2048, 256)]).
Proof.
  intros Hq.
  assert (forall l : list (Z * dtype),
             In (OPTIMIZER, T) l ->
             Forall (fun x => In x.1 [ADAM; MOMENTUM; RMSPROP; ADAGRAD]) l ->
             In OPTIMIZER [ADAM; MOMENTUM; RMSPROP; ADAGRAD]) as Hkind.
  { intros l Hin Hall. rewrite Forall_forall in Hall.
    apply (Hall (OPTIMIZER, T)), list_elem_of_In, Hin. }
  split; [|split]; intros Hin.
  - apply Hkind in Hin; [|kinds].
    destruct (routine_kernels_run n 4096 _ _ w
                (K_optimizer32bit T OPTIMIZER g p state1 state2 unorm max_unorm
                   param_norm beta1 beta2 eps weight_decay step lr gnorm_scale
                   skip_zeros n) ltac:(lia) ltac:(lia))
      as (w' & t & _ & Ht & _ & _ & Hret & _ & Hrun & _).
    specialize (Hrun Hq). specialize (Hret Hrun).
    exists w', t. unfold optimizer32bit_kernels in Hret.
    destruct Hin as [<-|[<-|[<-|[<-|[]]]]]; simpl in Hret;
      destruct (f_gt max_unorm f_zero);
      (eexists; split; [exact Hrun|]; split; [exact Ht|]);
      rewrite Hret; simpl;
      first [instantiate (1 := []); reflexivity
            |instantiate (1 := [_]); reflexivity].
  - apply Hkind in Hin; [|kinds].
    destruct (routine_kernels_run n 4096 _ _ w
                (K_optimizerStatic8bit T OPTIMIZER p g state1 state2 unorm
                   max_unorm param_norm beta1 beta2 eps step lr quantiles1
                   quantiles2 max1 max2 new_max1 new_max2 weight_decay
                   gnorm_scale n) ltac:(lia) ltac:(lia))
      as (w' & t & _ & Ht & _ & _ & Hret & _ & Hrun & _).
    specialize (Hrun Hq). specialize (Hret Hrun).
    exists w', t. split; [exact Hrun|]. split; [exact Ht|].
    rewrite Hret. unfold optimizerStatic8bit_kernels.
    destruct Hin as [<-|[<-|[<-|[<-|[]]]]]; reflexivity.
  - apply Hkind in Hin; [|kinds].
    destruct (routine_kernels_run n 2048 _ _ w
                (K_optimizerStatic8bitBlockwise T OPTIMIZER p g state1 state2
                   beta1 beta2 eps step lr quantiles1 quantiles2 absmax1
                   absmax2 weight_decay gnorm_scale skip_zeros n)
                ltac:(lia) ltac:(lia))
      as (w' & t & _ & Ht & _ & _ & Hret & _ & Hrun & _).
    specialize (Hrun Hq). specialize (Hret Hrun).
    exists w', t. split; [exact Hrun|]. split; [exact Ht|].
    rewrite Hret. unfold optimizerStatic8bitBlockwise_kernels.
    destruct Hin as [<-|[<-|[<-|[<-|[]]]]]; reflexivity.
Qed.

End InstantiatedOptimizers.

(** ** The further properties at concrete inputs *)

Lemma block_count_stays_in_int_witness :
  int_range 2147483647 /\ int_range 4096 /\
  c_div 2147483647 4096 = Some 524287 /\
  c_rem 2147483647 4096 = Some 4095 /\
  int_range 524287 /\ int_range 4095 /\
  int_range (if 4095 =? 0 then 524287 else 524287 + 1) /\
  (0 < 4096 ->
   (if 4095 =? 0 then 524287 else 524287 + 1) = num_blocks 2147483647 4096).
Proof.
  assert (int_range 2147483647) as H1
    by (unfold int_range, INT_MIN, INT_MAX; lia).
  assert (int_range 4096) as H2 by (unfold int_range, INT_MIN, INT_MAX; lia).
  assert (c_div 2147483647 4096 = Some 524287) as H3 by reflexivity.
  assert (c_rem 2147483647 4096 = Some 4095) as H4 by reflexivity.
  split; [exact H1|]. split; [exact H2|]. split; [exact H3|].
  split; [exact H4|].
  apply (block_count_stays_in_int 2147483647 4096 524287 4095 H1 H2 H3 H4).
Defined.

Lemma negative_count_work_groups_witness :
  routine_kernels (-5) 1024 [(kQuantize, 1024)] (quantize 0 1000 2000 (-5)) /\
  0 < 1024 /\ -5 < 0 /\
  exists w' t,
    (quantize 0 1000 2000 (-5) (fresh (∅ : heap Q)) = Returned tt w' \/
     quantize 0 1000 2000 (-5) (fresh (∅ : heap Q)) = Exited 1 w') /\
    trace w' = trace (fresh (∅ : heap Q)) ++ t /\
    (quiet (fresh (∅ : heap Q)) ->
     quantize 0 1000 2000 (-5) (fresh (∅ : heap Q)) = Returned tt w') /\
    (quantize 0 1000 2000 (-5) (fresh (∅ : heap Q)) = Exited 1 w' ->
     exists t0 e,
       t = t0 ++ [e] /\ status_of e <> cudaSuccess /\
       In (status_of e) (runtime (fresh (∅ : heap Q)))) /\
    (quantize 0 1000 2000 (-5) (fresh (∅ : heap Q)) = Returned tt w' ->
     launch_shapes t = [(kQuantize, 1, 1024)]) /\
    launch_shapes t `prefix_of` [(kQuantize, 1, 1024)] /\
    (- 1024 < -5 -> num_blocks (-5) 1024 = 1 /\ Forall (grid_is 1) t) /\
    (-5 <= - 1024 ->
     num_blocks (-5) 1024 <= 0 /\ Forall idle_launch t /\
     mem w' = replay_memsets t (mem (fresh (∅ : heap Q)))).
Proof.
  assert (routine_kernels (-5) 1024 [(kQuantize, 1024)]
            (quantize (F := Q) 0 1000 2000 (-5))) as Hr
    by constructor.
  split; [exact Hr|]. split; [lia|]. split; [lia|].
  apply (negative_count_work_groups (-5) 1024 _ _ (fresh ∅) Hr); lia.
Defined.

Lemma launches_match_kernel_templates_witness :
  routine 4097 2048
    (optimizerStatic8bitBlockwise float ADAGRAD 0 5000 10000 15000 (9 # 10)%Q
       (999 # 1000)%Q (1 # 100000000)%Q 1 (1 # 1000)%Q 30000 31000 40000 41000
       0%Q 1%Q false 4097) /\
  0 < 2048 /\
  exists w' t,
    (optimizerStatic8bitBlockwise float ADAGRAD 0 5000 10000 15000 (9 # 10)%Q
       (999 # 1000)%Q (1 # 100000000)%Q 1 (1 # 1000)%Q 30000 31000 40000 41000
       0%Q 1%Q false 4097 failing_world = Returned tt w' \/
     optimizerStatic8bitBlockwise float ADAGRAD 0 5000 10000 15000 (9 # 10)%Q
       (999 # 1000)%Q (1 # 100000000)%Q 1 (1 # 1000)%Q 30000 31000 40000 41000
       0%Q 1%Q false 4097 failing_world = Exited 1 w') /\
    trace w' = trace failing_world ++ t /\
    Forall (well_shaped 4097) t.
Proof.
  assert (routine 4097 2048
            (optimizerStatic8bitBlockwise (F := Q) float ADAGRAD 0 5000 10000
               15000 (9 # 10)%Q (999 # 1000)%Q (1 # 100000000)%Q 1
               (1 # 1000)%Q 30000 31000 40000 41000 0%Q 1%Q false 4097))
    as Hr by constructor.
  split; [exact Hr|]. split; [lia|].
  apply (launches_match_kernel_templates 4097 2048 _ failing_world Hr). lia.
Defined.

Lemma host_only_zeroes_accumulators_witness :
  host_zeroes [(0, 256)] (estimateQuantiles float 1000 0 (1 # 256)%Q 4097) /\
  match estimateQuantiles float 1000 0 (1 # 256)%Q 4097 sample_world with
  | Returned _ w' | Exited _ w' =>
      exists t,
        trace w' = trace sample_world ++ t /\
        Forall (zeroes_among [(0, 256)]) t /\
        ([(0, 256)] = [] ->
         Forall (fun e => match e with
                          | EvMemset _ _ _ _ => False
                          | _ => True
                          end) t) /\
        mem w' = apply_events t (mem sample_world)
  | Undefined => True
  end.
Proof.
  assert (host_zeroes [(0, 256)]
            (estimateQuantiles (F := Q) float 1000 0 (1 # 256)%Q 4097)) as Hz
    by constructor.
  split; [exact Hz|].
  apply (host_only_zeroes_accumulators _ _ sample_world Hz).
Defined.

Lemma call_sequence_contract_witness :
  Forall (fun m => exists n E, routine n E m /\ 0 < E)
    [quantize (F := Q) 0 1000 7000 4097; dequantize 0 7000 12000 4097] /\
  exists w',
    call_sequence [quantize 0 1000 7000 4097; dequantize 0 7000 12000 4097]
      sample_world = Returned tt w' /\
    quiet w'.
Proof.
  assert (Forall (fun m => exists n E, routine n E m /\ 0 < E)
            [quantize (F := Q) 0 1000 7000 4097; dequantize 0 7000 12000 4097])
    as Hc.
  { repeat constructor.
    - exists 4097, 1024. split; [constructor|lia].
    - exists 4097, 1024. split; [constructor|lia]. }
  split; [exact Hc|].
  apply (call_sequence_contract _ sample_world Hc). apply quiet_fresh.
Defined.

Lemma unknown_kind_is_complete_noop_witness :
  ~ In 7 [ADAM; MOMENTUM; RMSPROP; ADAGRAD] /\
  optimizer32bit float 7 0 5000 10000 15000 20000 1%Q 1%Q (9 # 10)%Q
    (999 # 1000)%Q (1 # 100000000)%Q 0%Q 1 (1 # 1000)%Q 1%Q false 5000
    failing_world
  = Returned tt failing_world /\
  optimizerStatic8bitBlockwise float 7 5000 0 10000 15000 (9 # 10)%Q
    (999 # 1000)%Q (1 # 100000000)%Q 1 (1 # 1000)%Q 30000 31000 40000 41000
    0%Q 1%Q false 5000 failing_world
  = Returned tt failing_world.
Proof.
  assert (~ In 7 [ADAM; MOMENTUM; RMSPROP; ADAGRAD]) as H1.
  { unfold ADAM, MOMENTUM, RMSPROP, ADAGRAD. simpl. lia. }
  split; [exact H1|].
  apply unknown_kind_is_complete_noop, H1.
Defined.

Lemma maxima_world_outside a :
  a <> 100 -> a <> 101 -> mem maxima_world !! a = (∅ : heap Q) !! a.
Proof.
  intros H100 H101. unfold maxima_world, fresh, store_floats. cbn [mem].
  rewrite write_cells_lookup. cbn [length fmap list_fmap].
  rewrite bool_decide_eq_false_2 by lia. reflexivity.
Qed.

Lemma stale_outputs_do_not_matter_witness :
  quiet maxima_world /\ quiet (fresh (∅ : heap Q)) /\
  exists w1' w2',
    estimateQuantiles float 1000 0 (1 # 256)%Q 3 maxima_world = Returned tt w1' /\
    estimateQuantiles float 1000 0 (1 # 256)%Q 3 (fresh ∅) = Returned tt w2' /\
    mem w1' = mem w2'.
Proof.
  split; [apply quiet_fresh|]. split; [apply quiet_fresh|].
  destruct (stale_outputs_do_not_matter float 1000 0 (1 # 256)%Q 1000 0 0 3
              maxima_world (fresh ∅) (quiet_fresh _) (quiet_fresh _))
    as [Hcode _].
  apply Hcode. intros a Ha. apply maxima_world_outside; lia.
Defined.

Lemma stale_accumulators_do_not_matter_witness :
  In ADAM [ADAM; MOMENTUM; RMSPROP; ADAGRAD] /\
  quiet maxima_world /\ quiet (fresh (∅ : heap Q)) /\
  exists w1' w2',
    optimizerStatic8bit float ADAM 5000 0 10000 15000 20000 0%Q 1%Q
      (9 # 10)%Q (999 # 1000)%Q (1 # 100000000)%Q 1 (1 # 1000)%Q 30000 31000
      98 99 100 101 0%Q 1%Q 5000 maxima_world
    = Returned tt w1' /\
    optimizerStatic8bit float ADAM 5000 0 10000 15000 20000 0%Q 1%Q
      (9 # 10)%Q (999 # 1000)%Q (1 # 100000000)%Q 1 (1 # 1000)%Q 30000 31000
      98 99 100 101 0%Q 1%Q 5000 (fresh ∅)
    = Returned tt w2' /\
    mem w1' = mem w2'.
Proof.
  assert (In ADAM [ADAM; MOMENTUM; RMSPROP; ADAGRAD]) as H1
    by (left; reflexivity).
  split; [exact H1|]. split; [apply quiet_fresh|]. split; [apply quiet_fresh|].
  destruct (stale_accumulators_do_not_matter float ADAM 0 5000 10000 15000
              20000 0%Q 1%Q (9 # 10)%Q (999 # 1000)%Q (1 # 100000000)%Q 0%Q 1
              (1 # 1000)%Q 1%Q false 30000 31000 98 99 100 101 5000
              maxima_world (fresh ∅) H1 (quiet_fresh _) (quiet_fresh _))
    as [_ Hstatic].
  apply Hstatic. intros a H100 H101 _. apply maxima_world_outside; [exact H100|].
  intros ->. apply H101. split; reflexivity.
Defined.

Lemma blockwise_partitions_differ_witness :
  0 <= 2049 /\ quiet (fresh (∅ : heap Q)) /\
  exists w1 w2,
    quantizeBlockwise float 1 0 1000 6000 7000 20000 0 2049 (fresh (∅ : heap Q))
    = Returned tt w1 /\
    dequantizeBlockwise float 0 7000 6000 12000 2048 2049 w1 = Returned tt w2 /\
    launches (trace w2) =
      launches (trace (fresh (∅ : heap Q))) ++
      [EvLaunch (kQuantizeBlockwise float 4096 4 1) (num_blocks 2049 4096) 1024
         [APtr 0; APtr 1000; APtr 6000; APtr 7000; APtr 20000; AInt 0;
          AInt 2049];
       EvLaunch (kDequantizeBlockwise float 2048 512 4) (num_blocks 2049 2048) 512
         [APtr 0; APtr 7000; APtr 6000; APtr 12000; AInt 2049]] /\
    num_blocks 2049 4096 <= num_blocks 2049 2048 <= 2 * num_blocks 2049 4096 /\
    (num_blocks 2049 4096 < num_blocks 2049 2048 <-> 2048 < 2049).
Proof.
  split; [lia|]. split; [apply quiet_fresh|].
  apply blockwise_partitions_differ; [lia|apply quiet_fresh].
Defined.

Lemma instantiated_optimizers_dispatch_witness :
  quiet (fresh (∅ : heap Q)) /\
  (In (ADAGRAD, half) optimizer32bit_instantiations ->
   exists w' t pre,
     optimizer32bit half ADAGRAD 0 5000 10000 15000 20000 1%Q 1%Q (9 # 10)%Q
       (999 # 1000)%Q (1 # 100000000)%Q 0%Q 1 (1 # 1000)%Q 1%Q false 5000
       (fresh (∅ : heap Q))
     = Returned tt w' /\
     trace w' = trace (fresh (∅ : heap Q)) ++ t /\
     launch_shapes t =
       pre ++ [(kOptimizer32bit1State half ADAGRAD, num_blocks 5000 4096, 1024)]) /\
  (In (ADAGRAD, half) optimizerStatic8bitBlockwise_instantiations ->
   exists w' t,
     optimizerStatic8bitBlockwise half ADAGRAD 5000 0 10000 15000 (9 # 10)%Q
       (999 # 1000)%Q (1 # 100000000)%Q 1 (1 # 1000)%Q 30000 31000 40000 41000
       0%Q 1%Q false 5000 (fresh (∅ : heap Q))
     = Returned tt w' /\
     trace w' = trace (fresh (∅ : heap Q)) ++ t /\
     launch_shapes t =
       [(kOptimizerStatic8bit1StateBlockwise half ADAGRAD 2048 8,
         num_blocks 5000 2048, 256)]).
Proof.
  split; [apply quiet_fresh|].
  destruct (instantiated_optimizers_dispatch half ADAGRAD 0 5000 10000 15000
              20000 1%Q 1%Q (9 # 10)%Q (999 # 1000)%Q (1 # 100000000)%Q 0%Q 1
              (1 # 1000)%Q 1%Q false 30000 31000 98 99 100 101 40000 41000
              5000 (fresh ∅) (quiet_fresh _))
    as (H32 & _ & Hblock).
  split; [exact H32|exact Hblock].
Defined.
